(** * Avalanche bulletin signage: the grouping and rendering pipeline

    A shallow embedding of [bulletin/ava_bulletin_signage_fr.py].  The
    script reads a parsed JSON payload, looks up one region, resolves the
    overall danger level, groups the avalanche problems by a normalised
    key and renders an HTML page.  Python values are embedded as a small
    JSON value type, Python exceptions as an error result, and the
    script's output (console, icon files, the HTML file) as a trace of
    events. *)

From Stdlib Require Import ZArith List String Ascii Bool Lia.
From Stdlib Require Import Permutation DecimalString.
Import ListNotations.

Open Scope string_scope.
Open Scope Z_scope.

Set Warnings "-register-all".

(** ** Python values *)

(** The hashable JSON values: [None], booleans, integers and strings.
    JSON numbers with a fraction are outside the model. *)
Inductive scalar : Type :=
| SNone
| SBool (b : bool)
| SInt (n : Z)
| SStr (s : string).

(** A parsed JSON document.  A dict is an association list from its
    string keys, read by first match. *)
Inductive value : Type :=
| Sc (a : scalar)
| VList (l : list value)
| VDict (d : list (string * value)).

Coercion Sc : scalar >-> value.

Abbreviation VNone := (Sc SNone).
Abbreviation VBool b := (Sc (SBool b)).
Abbreviation VInt n := (Sc (SInt n)).
Abbreviation VStr s := (Sc (SStr s)).

(** The exceptions the script can raise on a parsed payload. *)
Inductive exn : Type :=
| AttributeError
| TypeError
| IndexError
| KeyError
| UnboundLocalError.

Inductive result (A : Type) : Type :=
| Ok (a : A)
| Raise (e : exn).

Arguments Ok {A} a.
Arguments Raise {A} e.

Definition bind {A B : Type} (r : result A) (k : A -> result B) : result B :=
  match r with
  | Ok a => k a
  | Raise e => Raise e
  end.

Notation "x <- e ;; k" := (bind e (fun x => k))
  (at level 100, e at next level, right associativity).
Notation "' p <- e ;; k" := (bind e (fun x => match x with p => k end))
  (at level 100, p pattern, e at next level, right associativity).

Fixpoint mapM {A B : Type} (f : A -> result B) (l : list A) : result (list B) :=
  match l with
  | [] => Ok []
  | x :: l' => y <- f x ;; ys <- mapM f l' ;; Ok (y :: ys)
  end.

Fixpoint foldM {A S : Type} (f : S -> A -> result S) (l : list A) (s : S)
  : result S :=
  match l with
  | [] => Ok s
  | x :: l' => s' <- f s x ;; foldM f l' s'
  end.

(** ** Primitive operations of the language *)

(** [l.append(x)] *)
Definition push {A : Type} (l : list A) (x : A) : list A := (l ++ [x])%list.

Fixpoint assoc {A K : Type} (eqb : K -> K -> bool) (k : K) (d : list (K * A))
  : option A :=
  match d with
  | [] => None
  | (k', x) :: d' => if eqb k k' then Some x else assoc eqb k d'
  end.

Definition lookup {A : Type} (k : string) (d : list (string * A)) : option A :=
  assoc String.eqb k d.

(** Truth value of [if v:] / [not v]. *)
Definition truthy (v : value) : bool :=
  match v with
  | VNone => false
  | VBool b => b
  | VInt n => negb (n =? 0)
  | VStr s => negb (s =? "")%string
  | VList l => match l with [] => false | _ => true end
  | VDict d => match d with [] => false | _ => true end
  end.

(** [v is None] *)
Definition is_none (v : value) : bool :=
  match v with
  | VNone => true
  | _ => false
  end.

(** [v.get(k, dflt)]: only a dict has the method. *)
Definition py_get (v : value) (k : string) (dflt : value) : result value :=
  match v with
  | VDict d => Ok (match lookup k d with Some x => x | None => dflt end)
  | _ => Raise AttributeError
  end.

(** The characters of a string, each as a one-character string.
    Strings are byte strings; for ASCII text this is Python's iteration. *)
Fixpoint chars (s : string) : list string :=
  match s with
  | EmptyString => []
  | String c s' => String c EmptyString :: chars s'
  end.

(** [for x in v] / [tuple(v)]: lists give their elements, dicts their
    keys, strings their characters; other values are not iterable. *)
Definition py_iter (v : value) : result (list value) :=
  match v with
  | VList l => Ok l
  | VDict d => Ok (map (fun kv => VStr (fst kv)) d)
  | VStr s => Ok (map (fun c => VStr c) (chars s))
  | _ => Raise TypeError
  end.

(** [hash(v)] succeeds exactly on scalars. *)
Definition hashable (v : value) : result scalar :=
  match v with
  | Sc a => Ok a
  | _ => Raise TypeError
  end.

(** Numeric reading of a scalar: [True] is 1 and [False] is 0. *)
Definition num_of (a : scalar) : option Z :=
  match a with
  | SInt n => Some n
  | SBool b => Some (if b then 1 else 0)
  | _ => None
  end.

(** [a == b] on scalars. *)
Definition scalar_eqb (a b : scalar) : bool :=
  match num_of a, num_of b with
  | Some x, Some y => x =? y
  | _, _ =>
      match a, b with
      | SNone, SNone => true
      | SStr s, SStr t => (s =? t)%string
      | _, _ => false
      end
  end.

(** [a > b] on scalars: numbers with numbers, strings with strings. *)
Definition py_gt (a b : scalar) : result bool :=
  match num_of a, num_of b with
  | Some x, Some y => Ok (y <? x)
  | _, _ =>
      match a, b with
      | SStr s, SStr t => Ok (String.ltb t s)
      | _, _ => Raise TypeError
      end
  end.

(** [a >= b] on scalars. *)
Definition py_ge (a b : scalar) : result bool :=
  match num_of a, num_of b with
  | Some x, Some y => Ok (y <=? x)
  | _, _ =>
      match a, b with
      | SStr s, SStr t => Ok (String.leb t s)
      | _, _ => Raise TypeError
      end
  end.

(** [v == [c1, ..., cn]] for a literal list of strings. *)
Fixpoint elems_eq_strs (l : list value) (c : list string) : bool :=
  match l, c with
  | [], [] => true
  | VStr s :: l', t :: c' => (s =? t)%string && elems_eq_strs l' c'
  | _, _ => false
  end.

Definition eq_str_list (v : value) (c : list string) : bool :=
  match v with
  | VList l => elems_eq_strs l c
  | _ => false
  end.

(** [table.get(x, x)] for a table with string keys: the lookup hashes
    [x], a miss passes [x] through. *)
Definition table_get_self (table : list (string * scalar)) (x : value)
  : result scalar :=
  a <- hashable x ;;
  Ok (match a with
      | SStr s => match lookup s table with Some y => y | None => a end
      | _ => a
      end).

(** ** Grouping methods *)

(** [_elev_key] *)
Definition _elev_key (elev : value) : result (string * value * value) :=
  if negb (truthy elev) then Ok ("all", VNone, VNone)
  else
    lower <- py_get elev "lowerBound" VNone ;;
    upper <- py_get elev "upperBound" VNone ;;
    Ok ("range", lower, upper).

(** The list literal written in [_aspects_key]. *)
Definition ORDER : list string := ["N"; "NE"; "E"; "SE"; "S"; "SO"; "O"; "NO"].

(** [aspects in (None, [], c)] *)
Definition in_none_empty_or (aspects : value) (c : list string) : bool :=
  is_none aspects || eq_str_list aspects [] || eq_str_list aspects c.

(** [_aspects_key] *)
Definition _aspects_key (aspects : value) : result (list value) :=
  if in_none_empty_or aspects ["N"; "NE"; "E"; "SE"; "S"; "SO"; "O"; "NO"]
  then Ok [VStr "all"]
  else py_iter aspects.

(** ASCII white space as [str.strip] sees it. *)
Definition is_space (c : ascii) : bool :=
  let n := nat_of_ascii c in
  ((9 <=? n) && (n <=? 13) || (28 <=? n) && (n <=? 32))%nat.

Fixpoint lstrip (s : string) : string :=
  match s with
  | String c s' => if is_space c then lstrip s' else s
  | EmptyString => EmptyString
  end.

Fixpoint rstrip (s : string) : string :=
  match s with
  | String c s' =>
      match rstrip s' with
      | EmptyString => if is_space c then EmptyString else String c EmptyString
      | r => String c r
      end
  | EmptyString => EmptyString
  end.

Definition strip (s : string) : string := rstrip (lstrip s).

(** [_comment_key]: [(c or '').strip()] *)
Definition _comment_key (c : value) : result string :=
  if truthy c then
    match c with
    | VStr s => Ok (strip s)
    | _ => Raise AttributeError
    end
  else Ok (strip "").

(** [is_pure_other] *)
Definition is_pure_other (entries : list (scalar * scalar)) : bool :=
  forallb (fun e => scalar_eqb (fst e) (SStr "no_distinct_avalanche_problem"))
          entries.

(** ** Danger-level resolver *)

Definition warning_numbers : list (string * scalar) :=
  [("low", SInt 1); ("moderate", SInt 2); ("considerable", SInt 3);
   ("high", SInt 4); ("very high", SInt 5)].

Definition subdiv_dict : list (string * scalar) :=
  [("neutral", SStr "="); ("minus", SStr "-"); ("plus", SStr "+");
   ("equal", SStr "=")].

(** The body of the loop of [highest_warning].  The state is the local
    variable [mainValue]: [None] while it is not yet bound. *)
Definition highest_warning_body (mainValue : option scalar) (dr : value)
  : result (option scalar) :=
  old_warning <-
    match mainValue with
    | Some mv =>
        if is_none mv then Ok (SInt 0) else table_get_self warning_numbers mv
    | None => Ok (SInt 0)
    end ;;
  mv <- py_get dr "mainValue" VNone ;;
  new_warning <- table_get_self warning_numbers mv ;;
  gt <- py_gt new_warning old_warning ;;
  Ok (Some (if gt : bool then new_warning else old_warning)).

(** [highest_warning]: reading the local after a loop that never ran
    raises [UnboundLocalError]. *)
Definition highest_warning (region_info : value) : result scalar :=
  drs <- py_get region_info "dangerRatings" (VList []) ;;
  l <- py_iter drs ;;
  st <- foldM highest_warning_body l None ;;
  match st with
  | Some mv => Ok mv
  | None => Raise UnboundLocalError
  end.

(** [v[0]]: a dict of a JSON document has string keys only, so the key
    [0] is never found. *)
Definition py_index0 (v : value) : result value :=
  match v with
  | VList (x :: _) => Ok x
  | VList [] => Raise IndexError
  | VStr s =>
      match chars s with
      | c :: _ => Ok (VStr c)
      | [] => Raise IndexError
      end
  | VDict _ => Raise KeyError
  | _ => Raise TypeError
  end.

(** [warning_subdivision] *)
Definition warning_subdivision (region_info : value) : result scalar :=
  drs <- py_get region_info "dangerRatings" (VList []) ;;
  dr <- py_index0 drs ;;
  mainValue <- py_get dr "customData" VNone ;;
  ch <- py_get mainValue "CH" VNone ;;
  sub <- py_get ch "subdivision" VNone ;;
  sub_sign <- table_get_self subdiv_dict sub ;;
  Ok (if is_none sub_sign then SStr "" else sub_sign).

(** ** Compass icon file names *)

(** [hashlib.md5(...).hexdigest()], RFC 1321, on 32-bit words held in [Z]. *)
Module MD5.

Definition mask32 (x : Z) : Z := Z.land x 0xffffffff.

Definition not32 (x : Z) : Z := Z.lxor x 0xffffffff.

Definition rotl32 (x s : Z) : Z :=
  mask32 (Z.lor (Z.shiftl x s) (Z.shiftr x (32 - s))).

Definition K : list Z :=
  [0xd76aa478; 0xe8c7b756; 0x242070db; 0xc1bdceee;
   0xf57c0faf; 0x4787c62a; 0xa8304613; 0xfd469501;
   0x698098d8; 0x8b44f7af; 0xffff5bb1; 0x895cd7be;
   0x6b901122; 0xfd987193; 0xa679438e; 0x49b40821;
   0xf61e2562; 0xc040b340; 0x265e5a51; 0xe9b6c7aa;
   0xd62f105d; 0x02441453; 0xd8a1e681; 0xe7d3fbc8;
   0x21e1cde6; 0xc33707d6; 0xf4d50d87; 0x455a14ed;
   0xa9e3e905; 0xfcefa3f8; 0x676f02d9; 0x8d2a4c8a;
   0xfffa3942; 0x8771f681; 0x6d9d6122; 0xfde5380c;
   0xa4beea44; 0x4bdecfa9; 0xf6bb4b60; 0xbebfbc70;
   0x289b7ec6; 0xeaa127fa; 0xd4ef3085; 0x04881d05;
   0xd9d4d039; 0xe6db99e5; 0x1fa27cf8; 0xc4ac5665;
   0xf4292244; 0x432aff97; 0xab9423a7; 0xfc93a039;
   0x655b59c3; 0x8f0ccc92; 0xffeff47d; 0x85845dd1;
   0x6fa87e4f; 0xfe2ce6e0; 0xa3014314; 0x4e0811a1;
   0xf7537e82; 0xbd3af235; 0x2ad7d2bb; 0xeb86d391].

Definition S : list Z :=
  [7; 12; 17; 22; 7; 12; 17; 22; 7; 12; 17; 22; 7; 12; 17; 22;
   5; 9; 14; 20; 5; 9; 14; 20; 5; 9; 14; 20; 5; 9; 14; 20;
   4; 11; 16; 23; 4; 11; 16; 23; 4; 11; 16; 23; 4; 11; 16; 23;
   6; 10; 15; 21; 6; 10; 15; 21; 6; 10; 15; 21; 6; 10; 15; 21].

Definition state : Type := (Z * Z * Z * Z)%type.

Definition init : state := (0x67452301, 0xefcdab89, 0x98badcfe, 0x10325476).

(** Operation [i] of the 64 on the sixteen words [M] of one block. *)
Definition step (M : list Z) (st : state) (i : nat) : state :=
  let '(a, b, c, d) := st in
  let '(f, g) :=
    if (i <? 16)%nat then
      (Z.lor (Z.land b c) (Z.land (not32 b) d), i)
    else if (i <? 32)%nat then
      (Z.lor (Z.land d b) (Z.land (not32 d) c), ((5 * i + 1) mod 16)%nat)
    else if (i <? 48)%nat then
      (Z.lxor b (Z.lxor c d), ((3 * i + 5) mod 16)%nat)
    else
      (Z.lxor c (Z.lor b (not32 d)), ((7 * i) mod 16)%nat) in
  let f' := mask32 (f + a + nth i K 0 + nth g M 0) in
  (d, mask32 (b + rotl32 f' (nth i S 0)), b, c).

Definition word_le (b0 b1 b2 b3 : Z) : Z :=
  b0 + Z.shiftl b1 8 + Z.shiftl b2 16 + Z.shiftl b3 24.

Fixpoint words (bytes : list Z) : list Z :=
  match bytes with
  | b0 :: b1 :: b2 :: b3 :: rest => word_le b0 b1 b2 b3 :: words rest
  | _ => []
  end.

Definition block (st : state) (bytes : list Z) : state :=
  let '(a, b, c, d) := st in
  let '(a', b', c', d') := fold_left (step (words bytes)) (seq 0 64) st in
  (mask32 (a + a'), mask32 (b + b'), mask32 (c + c'), mask32 (d + d')).

(** [n] blocks of 64 bytes. *)
Fixpoint blocks (n : nat) (st : state) (bytes : list Z) : state :=
  match n with
  | O => st
  | Datatypes.S n' => blocks n' (block st (firstn 64 bytes)) (skipn 64 bytes)
  end.

Definition bytes_le (k : nat) (x : Z) : list Z :=
  map (fun i => Z.land (Z.shiftr x (8 * Z.of_nat i)) 0xff) (seq 0 k).

Definition pad (msg : list Z) : list Z :=
  let len := Z.of_nat (List.length msg) in
  msg ++ [0x80] ++ repeat 0 (Z.to_nat ((55 - len) mod 64))
      ++ bytes_le 8 (8 * len).

Definition digest (msg : list Z) : list Z :=
  let p := pad msg in
  let '(a, b, c, d) := blocks (List.length p / 64) init p in
  bytes_le 4 a ++ bytes_le 4 b ++ bytes_le 4 c ++ bytes_le 4 d.

Definition hex_digit (n : Z) : ascii :=
  nth (Z.to_nat n)
      ["0"; "1"; "2"; "3"; "4"; "5"; "6"; "7"; "8"; "9";
       "a"; "b"; "c"; "d"; "e"; "f"]%char "0"%char.

Fixpoint hex (bytes : list Z) : string :=
  match bytes with
  | [] => EmptyString
  | b :: rest =>
      String (hex_digit (Z.shiftr b 4 mod 16))
             (String (hex_digit (b mod 16)) (hex rest))
  end.

(** [key.encode()]: the bytes of the string. *)
Definition encode (s : string) : list Z :=
  map (fun c => Z.of_N (N_of_ascii c)) (list_ascii_of_string s).

Definition hexdigest (s : string) : string := hex (digest (encode s)).

End MD5.

(** [str.upper] on the ASCII letters. *)
Definition upper_ascii (c : ascii) : ascii :=
  let n := nat_of_ascii c in
  if ((97 <=? n) && (n <=? 122))%nat then ascii_of_nat (n - 32) else c.

Fixpoint upper (s : string) : string :=
  match s with
  | EmptyString => EmptyString
  | String c s' => String (upper_ascii c) (upper s')
  end.

(** [sorted] on strings, ordered by code unit. *)
Fixpoint insert_sorted (x : string) (l : list string) : list string :=
  match l with
  | [] => [x]
  | y :: l' => if String.leb x y then x :: l else y :: insert_sorted x l'
  end.

Fixpoint sorted (l : list string) : list string :=
  match l with
  | [] => []
  | x :: l' => insert_sorted x (sorted l')
  end.

(** [filename_for_expos]; [prefix] and [fmt] default to the two
    constants below. *)
Definition filename_for_expos (expos : list string) (prefix fmt : string)
  : string :=
  let key := String.concat "," (sorted (map upper expos)) in
  let h := substring 0 10 (MD5.hexdigest key) in
  prefix ++ h ++ "." ++ fmt.

Definition default_prefix : string := "compass_fr_".
Definition default_fmt : string := "svg".

(** ** Lookup tables of the script *)

Definition warnings : list (Z * scalar) :=
  [(1, SStr "faible"); (2, SStr "limité"); (3, SStr "marqué");
   (4, SStr "fort"); (5, SStr "très fort")].

Definition hex_warnings : list (Z * scalar) :=
  [(1, SStr "#ccff66"); (2, SStr "#ffff00"); (3, SStr "#ff9900");
   (4, SStr "#ff0000"); (5, SStr "#ff0000")].

Definition snow_type : list (string * scalar) :=
  [("new_snow", SStr "Neige fraîche"); ("wind_slab", SStr "Neige soufflée");
   ("gliding_snow", SStr "Avalanches de glissement");
   ("wet_snow", SStr "Neige mouillée");
   ("persistent_weak_layers", SStr "Neige ancienne")].

Definition aspects_dict : list (string * scalar) :=
  [("N", SStr "N"); ("NE", SStr "NE"); ("E", SStr "E"); ("SE", SStr "SE");
   ("S", SStr "S"); ("SW", SStr "SO"); ("W", SStr "O"); ("NW", SStr "NO")].

Definition REGION_ID : string := "CH-4211".

(** [table.get(x, x)] for a table with integer keys; [True] and [False]
    hash and compare as 1 and 0. *)
Definition int_table_get_self (table : list (Z * scalar)) (x : scalar) : scalar :=
  match num_of x with
  | Some n => match assoc Z.eqb n table with Some y => y | None => x end
  | None => x
  end.

(** [table.get(x)] for a table with string keys: [None] on a miss. *)
Definition table_get (table : list (string * scalar)) (x : value)
  : result scalar :=
  a <- hashable x ;;
  Ok (match a with
      | SStr s => match lookup s table with Some y => y | None => SNone end
      | _ => SNone
      end).

(** [str(a)], as an f-string formats a scalar. *)
Definition str_scalar (a : scalar) : string :=
  match a with
  | SNone => "None"
  | SBool true => "True"
  | SBool false => "False"
  | SInt n => NilZero.string_of_int (Z.to_int n)
  | SStr s => s
  end.

(** [sep.join(l)]: every item must be a string. *)
Definition all_strs (l : list scalar) : result (list string) :=
  mapM (fun a => match a with SStr s => Ok s | _ => Raise TypeError end) l.

(** [v[k]] for a string [k]: only a dict can be indexed by a string. *)
Definition py_getitem (v : value) (k : string) : result value :=
  match v with
  | VDict d => match lookup k d with Some x => Ok x | None => Raise KeyError end
  | _ => Raise TypeError
  end.

(** [v == s] for a string [s]. *)
Definition value_eq_str (v : value) (s : string) : bool :=
  match v with
  | VStr t => (t =? s)%string
  | _ => false
  end.

(** ** Output of a run *)

Inductive event : Type :=
| Print (msg : string)
| SaveCompass (path : string) (expos : list string)
| WriteFile (path : string) (content : string).

(** A computation with a trace of output events; an exception keeps the
    events that happened before it. *)
Definition M (A : Type) : Type := (list event * result A)%type.

Definition retM {A : Type} (a : A) : M A := ([], Ok a).

Definition lift {A : Type} (r : result A) : M A := ([], r).

Definition emit (e : event) : M unit := ([e], Ok tt).

Definition bindM {A B : Type} (m : M A) (k : A -> M B) : M B :=
  match m with
  | (tr, Ok a) => let (tr', r) := k a in ((tr ++ tr')%list, r)
  | (tr, Raise e) => (tr, Raise e)
  end.

Notation "x <~ e ;; k" := (bindM e (fun x => k))
  (at level 100, e at next level, right associativity).
Notation "' p <~ e ;; k" := (bindM e (fun x => match x with p => k end))
  (at level 100, p pattern, e at next level, right associativity).

Fixpoint foldMM {A S : Type} (f : S -> A -> M S) (l : list A) (s : S) : M S :=
  match l with
  | [] => retM s
  | x :: l' => s' <~ f s x ;; foldMM f l' s'
  end.

(** ** Groups *)

(** A hashed grouping key: the elevation triple, the aspects tuple and
    the trimmed comment. *)
Definition group_key : Type :=
  ((string * scalar * scalar) * list scalar * string)%type.

Record group : Type := mkGroup {
  problem_entries : list (scalar * scalar);
  mountain_icon : string;
  elev_text : string;
  fname : string;
  expo_text : string;
  comment : value;
  raw : list value
}.

(** Hashing the key tuple, as the dict lookup [k not in groups] does. *)
Definition hash_key (ek : string * value * value) (ak : list value)
  (ck : string) : result group_key :=
  let '(tag, lower, upper) := ek in
  lo <- hashable lower ;;
  hi <- hashable upper ;;
  asp <- mapM hashable ak ;;
  Ok ((tag, lo, hi), asp, ck).

Fixpoint scalars_eqb (l1 l2 : list scalar) : bool :=
  match l1, l2 with
  | [], [] => true
  | a :: l1', b :: l2' => scalar_eqb a b && scalars_eqb l1' l2'
  | _, _ => false
  end.

(** [k1 == k2] on key tuples. *)
Definition key_eqb (k1 k2 : group_key) : bool :=
  let '((t1, lo1, hi1), a1, c1) := k1 in
  let '((t2, lo2, hi2), a2, c2) := k2 in
  (t1 =? t2)%string && scalar_eqb lo1 lo2 && scalar_eqb hi1 hi2
  && scalars_eqb a1 a2 && (c1 =? c2)%string.

(** The key [k] of a record, line by line: the tuple of the three
    normalised fields, then its hash. *)
Definition key_of (ap elev aspects : value) : result group_key :=
  ek <- _elev_key elev ;;
  ak <- _aspects_key aspects ;;
  c <- py_get ap "comment" VNone ;;
  ck <- _comment_key c ;;
  hash_key ek ak ck.

Definition record_key (ap : value) : result group_key :=
  elev <- py_get ap "elevation" (VDict []) ;;
  aspects <- py_get ap "aspects" VNone ;;
  key_of ap elev aspects.

(** The [OrderedDict] of groups, in insertion order. *)
Definition groups_t : Type := list (group_key * group).

Definition key_in (k : group_key) (groups : groups_t) : bool :=
  existsb (fun kg => key_eqb k (fst kg)) groups.

Fixpoint update_group (k : group_key) (f : group -> group) (groups : groups_t)
  : groups_t :=
  match groups with
  | [] => []
  | (k', g) :: rest =>
      if key_eqb k k' then (k', f g) :: rest
      else (k', g) :: update_group k f rest
  end.

Definition append_entry (pt german : scalar) (ap : value) (g : group) : group :=
  mkGroup (push (problem_entries g) (pt, german)) (mountain_icon g)
          (elev_text g) (fname g) (expo_text g) (comment g) (push (raw g) ap).

(** The problem type and its label: [snow_type.get(pt, pt)] hashes [pt]. *)
Definition snow_label (pt : value) : result (scalar * scalar) :=
  german <- table_get_self snow_type pt ;;
  a <- hashable pt ;;
  Ok (a, german).

(** The aspect in French: [aspects_dict.get(aspect)], the aspect itself
    on a miss. *)
Definition translate_aspect (aspect : value) : result scalar :=
  fr_asp <- table_get aspects_dict aspect ;;
  a <- hashable aspect ;;
  Ok (if is_none fr_asp then a else fr_asp).

(** ** Rendering *)

Definition dq : string := String (ascii_of_nat 34) EmptyString.

Definition newline : string := String (ascii_of_nat 10) EmptyString.

Definition styles : string :=
  "<!DOCTYPE html>
    <html lang="
  ++ dq ++ "de"
  ++ dq ++ ">
    <head>
      <meta charset="
  ++ dq ++ "UTF-8"
  ++ dq ++ ">
      <title>Bulletin d'avalanche</title>
      <style>
        body {
          font-family: Helvetica, Arial, sans-serif;
          font-size: 16px;
          font-weight: 300;
          line-height: 1.5;
          padding: 20px;
          max-width: 2000px;
          margin: auto;
        }
        h1, h2, h3, h4, h5, h6 {
          font-family: Mark, Arial, sans-serif;
          font-weight: 700;
          letter-spacing: .02em;
          margin-top: 1em;
        }
        .section {
          margin-bottom: 20px;
        }
        .danger {
          font-weight: bold;
        }
        .subheading {
          font-weight: bold;
          margin-top: 10px;
        }
        .alert-beacon{
          position:fixed;
          top:16px;
          right:20px;
          width:16px; height:16px;
          border-radius:50%;
          background:#ff3b30;                 /* default red */
          box-shadow:
            0 0 0 3px rgba(255,59,48,.25),
            0 0 12px rgba(255,59,48,.6);
          z-index:9999;
          animation:beacon-blink 1.2s steps(2, end) infinite; /* ~0.83 Hz (safe) */
        }

        @keyframes beacon-blink{
          0%,49%   { opacity:1; }
          50%,100% { opacity:.15; }            /* dim instead of fully off = nicer */
        }

      </style>
    </head>
    <body>
    ".

(** A time stamp, as [parse_active_at] hands it to the pipeline. *)
Record datetime : Type := mkDatetime {
  year : Z; month : Z; day : Z; hour : Z; minute : Z
}.

Definition pad2 (n : Z) : string :=
  if n <? 10 then "0" ++ str_scalar (SInt n) else str_scalar (SInt n).

(** [dt.strftime("%d.%m.%Y, %H:%M")] *)
Definition strftime (dt : datetime) : string :=
  pad2 (day dt) ++ "." ++ pad2 (month dt) ++ "." ++ str_scalar (SInt (year dt))
  ++ ", " ++ pad2 (hour dt) ++ ":" ++ pad2 (minute dt).

(** The public names of the standard module [datetime], which the
    script imports as a whole ([import datetime]). *)
Definition datetime_module : list string :=
  ["date"; "datetime"; "time"; "timedelta"; "timezone"; "tzinfo";
   "MINYEAR"; "MAXYEAR"; "UTC"].

(** [module.name] *)
Definition module_attr (names : list string) (name : string) : result unit :=
  if existsb (String.eqb name) names then Ok tt else Raise AttributeError.

(** [footer_date]: its first statement reads [datetime.fromisoformat],
    an attribute of the module. *)
Definition footer_date (ACTIVE_AT : datetime) : result string :=
  _ <- module_attr datetime_module "fromisoformat" ;;
  let formatted_date := strftime ACTIVE_AT in
  Ok (newline
      ++ "    <div style='position:fixed; bottom:10px; right:20px; font-size:0.9em; color:#555;'>"
      ++ newline ++ "      Zuletzt aktualisiert: " ++ formatted_date
      ++ newline ++ "    </div>" ++ newline ++ "    ").

(** [html_header] *)
Definition html_header (mainValue subdiv_value : scalar) : result string :=
  let h := ["<h1 style='margin:0;'>Bulletin d'avalanche</h1>"] in
  alert <- py_ge mainValue (SInt 3) ;;
  let h :=
    if alert : bool then
      push h "<div class='alert-beacon alert' aria-hidden='true' title='Warnsignal'></div>"
    else h in
  let h := push h "<div style='display:flex; align-items:center; justify-content:space-between; margin-bottom:30px;'>" in
  let h := push h "<div style='display:flex; align-items:center; gap:10px;'>" in
  let german_warning := int_table_get_self warnings mainValue in
  let hex_warning := int_table_get_self hex_warnings mainValue in
  let h :=
    push h ("<img src='static/images/" ++ str_scalar mainValue
            ++ ".png' style='height:60px;' />") in
  let h :=
    if scalar_eqb hex_warning (SStr "#ffff00")
       || scalar_eqb hex_warning (SStr "#ccff66")
    then
      push h ("<span style='font-size:1.4em; font-weight:700; background-color:"
              ++ str_scalar hex_warning
              ++ "; color:#000000; padding: 2px 6px; border-radius:4px; font-weight:700;'>Niveau de danger: "
              ++ str_scalar german_warning ++ " (" ++ str_scalar mainValue
              ++ str_scalar subdiv_value ++ ")</h2>")
    else
      push h ("<span style='font-size:1.4em; font-weight:700; color:"
              ++ str_scalar hex_warning
              ++ "; font-weight:700;'>Niveau de danger: "
              ++ str_scalar german_warning ++ " (" ++ str_scalar mainValue
              ++ str_scalar subdiv_value ++ ")</h2>") in
  let h := push h "</div>" in
  let h := push h "</div>" in
  Ok (String.concat newline h).

(** The first occurrence of every problem type, in order. *)
Definition dedup_types (entries : list (scalar * scalar))
  : list (scalar * scalar) :=
  fst (fold_left
         (fun (acc : list (scalar * scalar) * list scalar) e =>
            let '(types, seen) := acc in
            if existsb (scalar_eqb (fst e)) seen then acc
            else (push types e, push seen (fst e)))
         entries ([], [])).

(** [classify]: the loop that sends every group to [other_groups] or to
    [normal_groups]. *)
Definition classify (gs : list group) : list group * list group :=
  fold_left
    (fun (acc : list group * list group) g =>
       let '(normal_groups, other_groups) := acc in
       if is_pure_other (problem_entries g)
       then (normal_groups, push other_groups g)
       else (push normal_groups g, other_groups))
    gs ([], []).

(** [", ".join] of the translated aspects, with the list itself. *)
Definition join_aspects (l : list scalar) : result (string * list string) :=
  strs <- all_strs l ;;
  Ok (String.concat ", " strs, strs).

(** The exposition text and the list handed to the compass icon. *)
Definition expo_display (aspects : value) : result (string * list string) :=
  if in_none_empty_or aspects ["N"; "NE"; "E"; "SE"; "S"; "SW"; "W"; "NW"]
  then Ok ("toutes les expositions", ORDER)
  else
    l <- py_iter aspects ;;
    fr_asp_list <- mapM translate_aspect l ;;
    join_aspects fr_asp_list.

Section Rendering.

(** Python's [repr] of a list or a dict, which [str] falls back on; it
    is left open, no scalar is formatted through it. *)
Variable py_repr : value -> string.

(** [str(v)], as an f-string formats a value. *)
Definition py_str (v : value) : string :=
  match v with
  | Sc a => str_scalar a
  | _ => py_repr v
  end.

(** The elevation text and the mountain icon of a new group. *)
Definition elev_display (elev : value) : result (string * string) :=
  if truthy elev then
    lower <- py_get elev "lowerBound" VNone ;;
    upper <- py_get elev "upperBound" VNone ;;
    if is_none lower && negb (is_none upper) then
      Ok ("en dessous de " ++ py_str upper ++ "m", "below_mountain.png")
    else if is_none upper && negb (is_none lower) then
      Ok ("à plus de " ++ py_str lower ++ "m", "above_mountain.png")
    else
      Ok (if negb (is_none lower) && negb (is_none upper)
          then py_str lower ++ "-" ++ py_str upper ++ "m"
          else "toutes les altitudes",
          "all_mountain.png")
  else Ok ("toutes les altitudes", "all_mountain.png").

(** The group created for a key seen for the first time; the compass
    icon is saved on the way. *)
Definition new_group (ap elev aspects : value) : M group :=
  ' (elev_text, mountain_icon) <~ lift (elev_display elev) ;;
  ' (expo_text, fr_asp_list) <~ lift (expo_display aspects) ;;
  let fname := filename_for_expos fr_asp_list default_prefix "svg" in
  _ <~ emit (SaveCompass ("bulletin/static/images/" ++ fname) fr_asp_list) ;;
  c <~ lift (py_get ap "comment" VNone) ;;
  retM (mkGroup [] mountain_icon elev_text fname expo_text c []).

(** The body of the loop over [avalancheProblems]. *)
Definition add_problem (groups : groups_t) (ap : value) : M groups_t :=
  elev <~ lift (py_get ap "elevation" (VDict [])) ;;
  aspects <~ lift (py_get ap "aspects" VNone) ;;
  k <~ lift (key_of ap elev aspects) ;;
  groups <~ (if negb (key_in k groups) then
               g <~ new_group ap elev aspects ;;
               retM (push groups (k, g))
             else retM groups) ;;
  pt <~ lift (py_get ap "problemType" VNone) ;;
  ' (pt, german) <~ lift (snow_label pt) ;;
  retM (update_group k (append_entry pt german ap) groups).

Definition build_groups (aps : list value) : M groups_t :=
  foldMM add_problem aps [].

(** One row of a card: the icon and the label of a problem type. *)
Definition render_type_row (html_output : list string) (e : scalar * scalar)
  : list string :=
  let '(pt, german) := e in
  let h := push html_output
    "<div style='display:flex; align-items:center; gap:10px; margin-bottom:6px;'>" in
  let '(h, label) :=
    if negb (scalar_eqb pt (SStr "no_distinct_avalanche_problem")) then
      (push h ("<img src='static/images/" ++ str_scalar pt
               ++ ".jpg' style='max-height:48px; max-width:48px;' />"),
       german)
    else
      (push h "<div style='width:48px; height:48px; flex:0 0 48px;'></div>",
       SStr "Pas de problème avalancheux particulier") in
  let h := push h
    ("<span style='display:inline-block; padding:2px 8px; border-radius:12px; background:#f2f2f2; font-weight:700;'>"
     ++ str_scalar label ++ "</span>") in
  push h "</div>".

(** [render_group_card], appending to the global [html_output]. *)
Definition render_group_card (html_output : list string) (g : group)
  : list string :=
  let types := dedup_types (problem_entries g) in
  let h := push html_output "<div style='min-width:0; box-sizing:border-box;'>" in
  let h := push h "<div style='display:flex; align-items:flex-start; gap:16px;'>" in
  let h := push h "<div style='display:flex; flex-direction:column; gap:8px;'>" in
  let h := fold_left render_type_row types h in
  let h := push h "<div style='display:flex; align-items:center;'>" in
  let h :=
    if negb (mountain_icon g =? "")%string then
      push h ("<img src='static/images/" ++ mountain_icon g
              ++ "' style='max-height:60px; max-width:60px; margin-right:10px;' />")
    else h in
  let h := push h
    ("<p style='margin:0; overflow-wrap:anywhere; word-break:break-word;'><b style='font-weight:700;'>Plage d'altitude:</b> "
     ++ elev_text g ++ "</p>") in
  let h := push h "</div>" in
  let h := push h "<div style='display:flex; align-items:center;'>" in
  let h :=
    if negb (fname g =? "")%string then
      push h ("<img src='static/images/" ++ fname g
              ++ "' style='max-height:60px; max-width:60px; margin-right:10px;' />")
    else h in
  let h := push h
    ("<p style='margin:0; overflow-wrap:anywhere; word-break:break-word;'><b style='font-weight:700;'>Exposition:</b> "
     ++ expo_text g ++ "</p>") in
  let h := push h "</div>" in
  let h := push h "</div>" in
  let h := push h "<div style='flex:1; min-width:140px;'>" in
  let h := push h
    ("<p style='margin:0; overflow-wrap:anywhere; word-break:break-word;'><b style='font-weight:700;'>Description des dangers:</b> "
     ++ py_str (comment g) ++ "</p>") in
  let h := push h "</div>" in
  let h := push h "</div>" in
  push h "</div>".

(** ** The script *)

(** The inner loop of the region search: is [REGION_ID] among the
    regions, up to the [break]? *)
Fixpoint region_listed (regions : list value) : result bool :=
  match regions with
  | [] => Ok false
  | r :: rest =>
      id <- py_get r "regionID" VNone ;;
      if value_eq_str id REGION_ID then Ok true else region_listed rest
  end.

(** The outer loop: [region_info] is the variable it assigns, and it
    stops at the first feature that leaves it truthy. *)
Fixpoint find_region (feats : list value) (region_info : value)
  : result value :=
  match feats with
  | [] => Ok region_info
  | feat :: rest =>
      props <- py_get feat "properties" (VDict []) ;;
      regions <- py_get props "regions" (VList []) ;;
      rs <- py_iter regions ;;
      found <- region_listed rs ;;
      region_info <-
        (if found : bool then py_getitem feat "properties" else Ok region_info) ;;
      if truthy region_info then Ok region_info else find_region rest region_info
  end.

(** The command line, as [argparse] returns it. *)
Record args : Type := mkArgs { arg_date : string; arg_out : string }.

Definition default_args : args :=
  mkArgs "today" "bulletin/output/bulletin.html".

(** The groups are split into [normal_groups] and [other_groups], the
    grid container is opened and the cards are rendered: the loop over
    [normal_groups], then the loop over [other_groups]. *)
Definition render_groups (groups : groups_t) (html_output : list string)
  : list string :=
  let '(normal_groups, other_groups) := classify (map snd groups) in
  let html_output := push html_output
    "<div style='display:grid; grid-template-columns:repeat(2, minmax(0, 1fr)); gap:40px; align-items:start; margin-bottom:30px;'>" in
  let html_output := fold_left render_group_card normal_groups html_output in
  fold_left render_group_card other_groups html_output.

(** The [else] branch of the script: the page is built and written. *)
Definition build_page (BASE : string) (ACTIVE_AT : datetime)
  (region_info : value) : M unit :=
  let html_output := [styles] in
  mainValue <~ lift (highest_warning region_info) ;;
  subdiv_value <~ lift (warning_subdivision region_info) ;;
  html_top <~ lift (html_header mainValue subdiv_value) ;;
  let html_output := push html_output html_top in
  aps <~ lift (aps <- py_get region_info "avalancheProblems" (VList []) ;;
               py_iter aps) ;;
  groups <~ build_groups aps ;;
  let html_output := render_groups groups html_output in
  let html_output := push html_output "</div>" in
  html_date <~ lift (footer_date ACTIVE_AT) ;;
  let html_output := push html_output html_date in
  let html_output := push html_output "</body></html>" in
  let out_path := BASE ++ "/signage_bulletin_fr.html" in
  emit (WriteFile out_path (String.concat newline html_output)).

(** The script from the fetched payload [data] on.  [BASE] is the
    directory of the script file, [a] the parsed command line. *)
Definition main (a : args) (BASE : string) (ACTIVE_AT : datetime)
  (data : value) : M unit :=
  region_info <~ lift (feats <- py_get data "features" (VList []) ;;
                       fs <- py_iter feats ;;
                       find_region fs VNone) ;;
  if negb (truthy region_info) then
    emit (Print ("Region de " ++ REGION_ID ++ " introuvable."))
  else build_page BASE ACTIVE_AT region_info.

End Rendering.

(** The files a run has written with [open(..., "w")]. *)
Definition files_written (tr : list event) : list string :=
  flat_map (fun e => match e with WriteFile p _ => [p] | _ => [] end) tr.

(** The lines a run has printed. *)
Definition printed (tr : list event) : list string :=
  flat_map (fun e => match e with Print m => [m] | _ => [] end) tr.

(** ** The compass rose *)

Definition CARDINALS : list string := ["N"; "E"; "S"; "O"].

(** [{d: 90 - i * 45 for i, d in enumerate(ORDER)}] *)
Definition CENTER_ANGLE : list (string * Z) :=
  map (fun id => (snd id, 90 - Z.of_nat (fst id) * 45))
      (combine (seq 0 (List.length ORDER)) ORDER).

(** [d in l] for a set or a list of strings. *)
Definition str_in (d : string) (l : list string) : bool :=
  existsb (String.eqb d) l.

(** What [draw_compass] decides for one petal: its direction, the angle
    of its centre in degrees, the length of its tip and its face colour.
    Lengths and colours are the keyword arguments of the function, of
    any type. *)
Record petal (T C : Type) : Type := mkPetal {
  direction : string;
  theta_c : Z;
  tip_len : T;
  facecolor : C
}.

Arguments mkPetal {T C} _ _ _ _.
Arguments direction {T C} _.
Arguments theta_c {T C} _.
Arguments tip_len {T C} _.
Arguments facecolor {T C} _.

(** [draw_compass], the loop over the petals: the set of upper-cased
    expositions, then for every direction of [ORDER] its angle
    [CENTER_ANGLE[d]], the longer tip for the cardinals and the "on"
    colour for the directions of the set.  The coordinates of the
    polygons ([_pt], [_petal_polygon]) are floating point and stay
    outside. *)
Definition compass_petals {T C : Type} (expos : list string)
  (tip_len_diag tip_len_card : T) (face_on face_off : C)
  : result (list (petal T C)) :=
  let expos := map upper expos in
  mapM (fun d =>
          theta <- match lookup d CENTER_ANGLE with
                   | Some a => Ok a
                   | None => Raise KeyError
                   end ;;
          Ok (mkPetal d theta
                (if str_in d CARDINALS then tip_len_card else tip_len_diag)
                (if str_in d expos then face_on else face_off)))
       ORDER.

(** ** The backfill script *)

(** [scripts/backfill.py].  Days are counted as ordinals; the world of
    the script (environment variables, the date parser and printer of
    the library, the working directory, what the renderer of a day
    returns and leaves behind, the content of the image directory) is a
    parameter, and what the script does to it is a list of actions. *)
Module Backfill.

Inductive action : Type :=
| Mkdir (path : string)
| Out (line : string)
| Err (line : string)
| Call (argv : list string)
| Copy (src dst : string).

Inductive ending : Type :=
| Done
| ValueError.

Section World.

(** [os.environ.get] *)
Variable environ : string -> option string.
(** [date.fromisoformat], [None] for a [ValueError] *)
Variable fromisoformat : string -> option Z.
(** [d.isoformat()], also [str(d)] *)
Variable isoformat : Z -> string.
(** [Path(".").resolve()] *)
Variable repo : string.
(** The exit code of the renderer run for a day, and whether its output
    file exists afterwards.  The world is that of a run in which
    [subprocess.call] returns for every day and the directories and files
    can be written: a call that cannot start [python], or a copy that
    fails, raises and ends the script, and is not described here. *)
Variable exit_code : Z -> Z.
Variable out_exists : Z -> bool.
(** The entries of the image directory when a day is copied ([None]
    when the directory does not exist), each with [is_file()]. *)
Variable images : Z -> option (list (string * bool)).

(** The two dates: from the command line when it has two arguments,
    else from the environment or the defaults. *)
Definition date_args (argv : list string) : string * string :=
  if (3 <=? List.length argv)%nat then (nth 1 argv "", nth 2 argv "")
  else
    (match environ "START_DATE" with Some s => s | None => "2024-12-01" end,
     match environ "END_DATE" with Some s => s | None => "2025-04-30" end).

Definition out_dir : string := repo ++ "/bulletin/output".
Definition img_src : string := repo ++ "/bulletin/static/images".
Definition public : string := repo ++ "/public/history".

Definition out_file (d : Z) : string :=
  out_dir ++ "/bulletin_" ++ isoformat d ++ ".html".

(** [public / d.isoformat()] *)
Definition day_dir (d : Z) : string := public ++ "/" ++ isoformat d.

(** The copies of the image files of a day. *)
Definition copy_images (d : Z) (day_dir : string) : list action :=
  match images d with
  | Some entries =>
      flat_map (fun e : string * bool =>
                  if snd e
                  then [Copy (img_src ++ "/" ++ fst e)
                             (day_dir ++ "/static/images/" ++ fst e)]
                  else [])
               entries
  | None => []
  end.

(** The body of the loop for the day [d]: its actions and whether the
    day was built ([ok += 1]) or skipped ([continue]). *)
Definition build_day (d : Z) : list action * bool :=
  let head :=
    [Out (newline ++ "=== Building " ++ isoformat d ++ " ===");
     Call ["python"; "bulletin/ava_bulletin_signage_de.py";
           "--date"; isoformat d; "--out"; out_file d]] in
  let rc := exit_code d in
  if negb (rc =? 0) || negb (out_exists d) then
    (head ++ [Err ("Skip " ++ isoformat d ++ " (exit=" ++ str_scalar (SInt rc)
                   ++ ")")],
     false)%list
  else
    (head ++ [Mkdir (day_dir d ++ "/static/images");
              Copy (out_file d) (day_dir d ++ "/index.html")]
          ++ copy_images d (day_dir d),
     true)%list.

(** The loop [for i in range(days)], with the counter [ok]. *)
Definition loop (start : Z) (days : Z) (acts : list action)
  : list action * Z :=
  fold_left
    (fun (st : list action * Z) (i : nat) =>
       let '(acts, ok) := st in
       let '(a, built) := build_day (start + Z.of_nat i) in
       ((acts ++ a)%list, if built : bool then ok + 1 else ok))
    (seq 0 (Z.to_nat days)) (acts, 0).

(** [main] *)
Definition main (argv : list string) : list action * ending :=
  let '(start_s, end_s) := date_args argv in
  match fromisoformat start_s with
  | None => ([], ValueError)
  | Some start =>
      match fromisoformat end_s with
      | None => ([], ValueError)
      | Some end_ =>
          let days := end_ - start + 1 in
          let '(acts, ok) := loop start days [Mkdir out_dir] in
          ((acts ++ [Out (newline ++ "Built " ++ str_scalar (SInt ok) ++ "/"
                          ++ str_scalar (SInt days) ++ " days")])%list,
           Done)
      end
  end.

(** The days from [start] to [end_], both included. *)
Definition days_between (start end_ : Z) : list Z :=
  map (fun i => start + Z.of_nat i) (seq 0 (Z.to_nat (end_ - start + 1))).

(** A day whose renderer exited with 0 and left its output file. *)
Definition built (d : Z) : bool := (exit_code d =? 0) && out_exists d.

(** The renderer calls among the actions. *)
Definition calls (acts : list action) : list (list string) :=
  flat_map (fun a => match a with Call argv => [argv] | _ => [] end) acts.

(** The lines on the error stream among the actions. *)
Definition errs (acts : list action) : list string :=
  flat_map (fun a => match a with Err line => [line] | _ => [] end) acts.

(** The copies among the actions. *)
Definition copies (acts : list action) : list (string * string) :=
  flat_map (fun a => match a with Copy src dst => [(src, dst)] | _ => [] end)
           acts.

(** The renderer call for a day. *)
Definition call_for (d : Z) : list string :=
  ["python"; "bulletin/ava_bulletin_signage_de.py";
   "--date"; isoformat d; "--out"; out_file d].

(** The copies of a built day: its page, then the image files. *)
Definition copies_for (d : Z) : list (string * string) :=
  (out_file d, day_dir d ++ "/index.html")
  :: copies (copy_images d (day_dir d)).

End World.

End Backfill.

(** ** Vocabulary of the properties *)

(** An elevation as the bulletin gives it: absent ([None]) or a dict. *)
Definition elevation_input (elev : value) : Prop :=
  elev = VNone \/ exists d, elev = VDict d.

(** The bound [k] of an elevation dict, [None] when the key is missing. *)
Definition bound (d : list (string * value)) (k : string) : value :=
  match lookup k d with
  | Some x => x
  | None => VNone
  end.

(** The rank of a severity label of the table. *)
Definition severity_rank (label : string) : option Z :=
  match lookup label warning_numbers with
  | Some (SInt n) => Some n
  | _ => None
  end.

(** A rating entry whose [mainValue] is a label of rank [n]. *)
Definition rating_of_rank (dr : value) (n : Z) : Prop :=
  exists rd label,
    dr = VDict rd /\ lookup "mainValue" rd = Some (VStr label)
    /\ severity_rank label = Some n.

(** The keys of a list in the order of their first occurrence. *)
Definition first_seen (ks : list group_key) : list group_key :=
  fold_left (fun seen k => if existsb (key_eqb k) seen then seen else push seen k)
            ks [].

Definition is_other (g : group) : bool := is_pure_other (problem_entries g).

Definition is_hex (c : ascii) : bool :=
  existsb (Ascii.eqb c)
    ["0"; "1"; "2"; "3"; "4"; "5"; "6"; "7"; "8"; "9";
     "a"; "b"; "c"; "d"; "e"; "f"]%char.

Fixpoint all_hex (s : string) : bool :=
  match s with
  | EmptyString => true
  | String c s' => is_hex c && all_hex s'
  end.

(** A record as the bulletin gives it: a dict whose elevation is absent
    or a dict with scalar bounds, whose aspects are absent or a list of
    strings, whose comment is absent or a string and whose problem type
    is a scalar. *)
Definition wf_elevation (v : value) : bool :=
  match v with
  | VNone => true
  | VDict d =>
      match bound d "lowerBound", bound d "upperBound" with
      | Sc _, Sc _ => true
      | _, _ => false
      end
  | _ => false
  end.

Definition wf_aspects (v : value) : bool :=
  match v with
  | VNone => true
  | VList l => forallb (fun x => match x with VStr _ => true | _ => false end) l
  | _ => false
  end.

Definition wf_comment (v : value) : bool :=
  match v with
  | VNone | VStr _ => true
  | _ => false
  end.

Definition wf_problem (ap : value) : bool :=
  match ap with
  | VDict d =>
      wf_elevation (match lookup "elevation" d with Some x => x | None => VDict [] end)
      && wf_aspects (bound d "aspects")
      && wf_comment (bound d "comment")
      && match bound d "problemType" with Sc _ => true | _ => false end
  | _ => false
  end.

(** The group under its key shows the elevation text and icon of a
    record of [aps] that has this key. *)
Definition elev_from_record (py_repr : value -> string) (aps : list value)
  (kg : group_key * group) : Prop :=
  exists ap elev,
    In ap aps
    /\ py_get ap "elevation" (VDict []) = Ok elev
    /\ record_key ap = Ok (fst kg)
    /\ elev_display py_repr elev
       = Ok (elev_text (snd kg), mountain_icon (snd kg)).

(** The tag of the elevation triple of a key. *)
Definition key_tag (k : group_key) : string := fst (fst (fst (fst k))).

(** A computation that ends without an exception. *)
Definition succeeds {A : Type} (m : M A) : Prop :=
  exists tr a, m = (tr, Ok a).

(** ** Sample payload: one rating and a problem given twice *)

Definition sample_rating : value :=
  VDict [("mainValue", VStr "considerable");
         ("customData", VDict [("CH", VDict [("subdivision", VStr "plus")])])].

Definition sample_problem : value :=
  VDict [("problemType", VStr "wind_slab");
         ("elevation", VDict [("lowerBound", VInt 2200)]);
         ("aspects", VList [VStr "N"; VStr "NE"])].

Definition sample_region : value :=
  VDict [("regions", VList [VDict [("regionID", VStr "CH-4211")]]);
         ("dangerRatings", VList [sample_rating]);
         ("avalancheProblems", VList [sample_problem; sample_problem])].

Definition sample_payload : value :=
  VDict [("features", VList [VDict [("properties", sample_region)]])].

Definition sample_time : datetime := mkDatetime 2025 1 5 8 0.

(** A stand-in for [repr] in closed examples. *)
Definition repr_unused (v : value) : string := "".

(** The eight aspects as the bulletin names them. *)
Definition full_aspects : value :=
  VList [VStr "N"; VStr "NE"; VStr "E"; VStr "SE";
         VStr "S"; VStr "SW"; VStr "W"; VStr "NW"].

(** ** Vocabulary of the grouping properties *)

(** The representative of a scalar under [==]: [True] and [False] stand
    for 1 and 0. *)
Definition canon (a : scalar) : scalar :=
  match a with
  | SBool b => SInt (if b then 1 else 0)
  | _ => a
  end.

Definition canon_key (k : group_key) : group_key :=
  let '((tag, lo, hi), asp, c) := k in
  ((tag, canon lo, canon hi), map canon asp, c).

(** The record has a key equal to [k]. *)
Definition has_key (k : group_key) (ap : value) : bool :=
  match record_key ap with
  | Ok k' => key_eqb k' k
  | Raise _ => false
  end.

(** The entry [(pt, german)] the loop appends for a record. *)
Definition record_entry (ap : value) : result (scalar * scalar) :=
  pt <- py_get ap "problemType" VNone ;;
  snow_label pt.

(** The number of records over all groups. *)
Definition total_records (groups : groups_t) : nat :=
  list_sum (map (fun kg => List.length (raw (snd kg))) groups).

(** The event of saving the icon of a group. *)
Definition saves_icon_of (e : event) (kg : group_key * group) : Prop :=
  exists expos,
    e = SaveCompass ("bulletin/static/images/" ++ fname (snd kg)) expos
    /\ fname (snd kg) = filename_for_expos expos default_prefix "svg".

(** The groups hold exactly the records [aps], each under its key:
    no two groups have equal keys, every group holds the records with
    its key in their order, with their entries, and is not empty, and
    every record has the key of a group. *)
Definition grouped (aps : list value) (groups : groups_t) : Prop :=
  NoDup (map (fun kg => canon_key (fst kg)) groups)
  /\ Forall (fun kg =>
               raw (snd kg) = filter (has_key (fst kg)) aps
               /\ mapM record_entry (raw (snd kg))
                  = Ok (problem_entries (snd kg))
               /\ raw (snd kg) <> [])
            groups
  /\ Forall (fun ap => exists k, record_key ap = Ok k /\ key_in k groups = true)
            aps.

(** ** Vocabulary of the string properties *)




(** The aspect in French, the aspect itself when the table has no entry. *)
Definition french (s : string) : string :=
  match lookup s aspects_dict with
  | Some (SStr t) => t
  | _ => s
  end.

(** One step of the loop of [dedup_types]. *)
Definition dedup_step (acc : list (scalar * scalar) * list scalar)
  (e : scalar * scalar) : list (scalar * scalar) * list scalar :=
  let '(types, seen) := acc in
  if existsb (scalar_eqb (fst e)) seen then acc
  else (push types e, push seen (fst e)).

(** ** Vocabulary of the region search *)

(** A region entry that names [REGION_ID]. *)
Definition names_region (r : value) : bool :=
  match r with
  | VDict rd => value_eq_str (bound rd "regionID") REGION_ID
  | _ => false
  end.

(** A region entry that is a dict and names another region, or none. *)
Definition other_region (r : value) : bool :=
  match r with
  | VDict rd => negb (value_eq_str (bound rd "regionID") REGION_ID)
  | _ => false
  end.

(** A feature whose regions, if it has any, are all other regions. *)
Definition feature_without_region (feat : value) : bool :=
  match feat with
  | VDict fd =>
      match lookup "properties" fd with
      | None => true
      | Some (VDict pd) =>
          match lookup "regions" pd with
          | None => true
          | Some (VList rs) => forallb other_region rs
          | Some _ => false
          end
      | Some _ => false
      end
  | _ => false
  end.

(** The eight petals in the order they are drawn: direction, angle, and
    whether the direction is a cardinal one. *)
Definition petal_table : list (string * Z * bool) :=
  [("N", 90, true); ("NE", 45, false); ("E", 0, true); ("SE", -45, false);
   ("S", -90, true); ("SO", -135, false); ("O", -180, true);
   ("NO", -225, false)].

(** The group shows the fields of the record: its elevation text and
    icon, its exposition text and compass file, and its comment as it
    stands. *)
Definition shows_record (py_repr : value -> string) (ap : value) (g : group)
  : Prop :=
  exists elev aspects expos,
    py_get ap "elevation" (VDict []) = Ok elev
    /\ py_get ap "aspects" VNone = Ok aspects
    /\ elev_display py_repr elev = Ok (elev_text g, mountain_icon g)
    /\ expo_display aspects = Ok (expo_text g, expos)
    /\ fname g = filename_for_expos expos default_prefix "svg"
    /\ py_get ap "comment" VNone = Ok (comment g).

(** ** A sample world for the backfill script: three days, the second of
    which fails *)
Module BackfillSample.

Definition environ (name : string) : option string := None.

Definition fromisoformat (s : string) : option Z :=
  if (s =? "2025-01-01")%string then Some 0
  else if (s =? "2025-01-02")%string then Some 1
  else if (s =? "2025-01-03")%string then Some 2
  else None.

Definition isoformat (d : Z) : string :=
  if d =? 0 then "2025-01-01"
  else if d =? 1 then "2025-01-02"
  else if d =? 2 then "2025-01-03"
  else "".

Definition exit_code (d : Z) : Z := if d =? 1 then 1 else 0.

Definition out_exists (d : Z) : bool := true.

Definition images (d : Z) : option (list (string * bool)) :=
  Some [("compass_fr_c068603260.svg", true); ("old", false)].

Definition argv : list string := ["backfill.py"; "2025-01-01"; "2025-01-03"].

End BackfillSample.

(** * Properties *)

(** ** Elevation keys *)

Lemma elev_key_falsy (elev : value) :
  truthy elev = false -> _elev_key elev = Ok ("all", VNone, VNone).
Proof. intros H. unfold _elev_key. rewrite H. reflexivity. Qed.

Lemma elev_key_dict (d : list (string * value)) :
  d <> [] ->
  _elev_key (VDict d) = Ok ("range", bound d "lowerBound", bound d "upperBound").
Proof.
  intros Hd. destruct d as [|kv d']; [congruence|]. reflexivity.
Qed.

Lemma lookup_cons_eq {A : Type} (k : string) (x : A) (d : list (string * A)) :
  lookup k ((k, x) :: d) = Some x.
Proof. unfold lookup. simpl. rewrite String.eqb_refl. reflexivity. Qed.

Lemma lookup_cons_ne {A : Type} (k k' : string) (x : A) (d : list (string * A)) :
  (k =? k')%string = false -> lookup k ((k', x) :: d) = lookup k d.
Proof. intros H. unfold lookup. simpl. rewrite H. reflexivity. Qed.

Lemma record_key_elevation_falsy (d : list (string * value)) (e : value) :
  lookup "elevation" d = None -> truthy e = false ->
  record_key (VDict (("elevation", e) :: d)) = record_key (VDict d).
Proof.
  intros Hd He. unfold record_key, key_of, py_get.
  rewrite lookup_cons_eq, Hd.
  rewrite !lookup_cons_ne by reflexivity.
  cbn [bind]. rewrite (elev_key_falsy e He).
  reflexivity.
Qed.

(** C7: [_elev_key] returns a key on every elevation input, an absent
    elevation and an empty dict get the same key [('all', None, None)],
    and the key of a record does not change when a missing elevation is
    written as an empty dict or as [None]. *)
Theorem elev_key_total_absent_is_empty :
  (forall elev, elevation_input elev -> exists k, _elev_key elev = Ok k)
  /\ _elev_key VNone = Ok ("all", VNone, VNone)
  /\ _elev_key (VDict []) = Ok ("all", VNone, VNone)
  /\ (forall d, lookup "elevation" d = None ->
        record_key (VDict (("elevation", VDict []) :: d)) = record_key (VDict d)
        /\ record_key (VDict (("elevation", VNone) :: d)) = record_key (VDict d)).
Proof.
  split; [|split; [reflexivity|split; [reflexivity|]]].
  - intros elev [->|[d ->]].
    + eexists. reflexivity.
    + destruct d as [|kv d'].
      * eexists. reflexivity.
      * eexists. apply elev_key_dict. discriminate.
  - intros d Hd. split; apply record_key_elevation_falsy; auto.
Qed.

Lemma elev_key_total_absent_is_empty_witness :
  (exists k, _elev_key (VDict [("lowerBound", VInt 2200)]) = Ok k)
  /\ record_key (VDict [("elevation", VDict []); ("comment", VStr "x")])
     = record_key (VDict [("comment", VStr "x")]).
Proof.
  split.
  - apply (proj1 elev_key_total_absent_is_empty). right. eexists. reflexivity.
  - apply (proj2 (proj2 (proj2 elev_key_total_absent_is_empty))
             [("comment", VStr "x")]).
    reflexivity.
Defined.

(** ** Aspect keys *)

(** C2: on the eight aspects in the bulletin's own labels
    (N, NE, E, SE, S, SW, W, NW) [_aspects_key] does not return
    [('all',)] but the eight labels; the list it collapses is the French
    one (SO, O, NO), while the display branch of the script tests the
    bulletin's labels.  A record with all eight aspects and a record
    without aspects so get different keys and the same exposition text. *)
Theorem aspects_key_full_set_not_collapsed :
  _aspects_key full_aspects
  = Ok [VStr "N"; VStr "NE"; VStr "E"; VStr "SE";
        VStr "S"; VStr "SW"; VStr "W"; VStr "NW"]
  /\ _aspects_key full_aspects <> Ok [VStr "all"]
  /\ _aspects_key VNone = Ok [VStr "all"]
  /\ _aspects_key (VList []) = Ok [VStr "all"]
  /\ _aspects_key (VList (map (fun s => VStr s) ORDER)) = Ok [VStr "all"]
  /\ expo_display full_aspects = expo_display VNone
  /\ record_key (VDict [("aspects", full_aspects)])
     <> record_key (VDict [("aspects", VNone)]).
Proof.
  repeat split; try reflexivity; vm_compute; discriminate.
Qed.

(** ** Danger level *)

Lemma severity_rank_range (label : string) (n : Z) :
  severity_rank label = Some n -> 1 <= n <= 5.
Proof.
  unfold severity_rank, lookup, warning_numbers. cbn [assoc].
  repeat match goal with
         | |- context [if ?b then _ else _] => destruct b
         end;
    intros H; inversion H; lia.
Qed.

Lemma table_rank (label : string) (n : Z) :
  severity_rank label = Some n ->
  table_get_self warning_numbers (VStr label) = Ok (SInt n).
Proof.
  unfold severity_rank, table_get_self. cbn [hashable bind].
  destruct (lookup label warning_numbers) as [[| | m |]|]; try discriminate.
  intros H. inversion H. reflexivity.
Qed.

(** One pass of the loop on a rating of rank [n], from a state that
    holds the integer [o] (or from the unbound state, read as 0). *)
Lemma highest_warning_body_rank (st : option scalar) (o n : Z) (dr : value) :
  st = None /\ o = 0 \/ st = Some (SInt o) ->
  rating_of_rank dr n ->
  highest_warning_body st dr = Ok (Some (SInt (Z.max o n))).
Proof.
  intros Hst (rd & label & -> & Hmv & Hrank).
  unfold highest_warning_body.
  assert (Hold : match st with
                 | Some mv => if is_none mv then Ok (SInt 0)
                              else table_get_self warning_numbers mv
                 | None => Ok (SInt 0)
                 end = Ok (SInt o)).
  { destruct Hst as [[-> ->]| ->]; reflexivity. }
  rewrite Hold. cbn [bind py_get]. rewrite Hmv.
  rewrite (table_rank label n Hrank). cbn [bind py_gt num_of].
  destruct (o <? n) eqn:E; do 3 f_equal.
  - apply Z.ltb_lt in E. lia.
  - apply Z.ltb_ge in E. lia.
Qed.

Lemma highest_warning_loop (drs : list value) (ranks : list Z) :
  Forall2 rating_of_rank drs ranks ->
  forall st o, st = Some (SInt o) ->
  foldM highest_warning_body drs st = Ok (Some (SInt (fold_left Z.max ranks o))).
Proof.
  induction 1 as [|dr n drs ranks Hdr _ IH]; intros st o Hst.
  - subst. reflexivity.
  - cbn [foldM fold_left].
    rewrite (highest_warning_body_rank st o n dr) by auto.
    cbn [bind]. apply IH. reflexivity.
Qed.

Lemma fold_max_ge (ranks : list Z) (o : Z) :
  o <= fold_left Z.max ranks o
  /\ Forall (fun r => r <= fold_left Z.max ranks o) ranks.
Proof.
  revert o. induction ranks as [|r ranks IH]; intros o; cbn [fold_left].
  - split; [lia|constructor].
  - destruct (IH (Z.max o r)) as [H1 H2]. split; [lia|].
    constructor; [lia|assumption].
Qed.

Lemma fold_max_in (ranks : list Z) (o : Z) :
  fold_left Z.max ranks o = o \/ In (fold_left Z.max ranks o) ranks.
Proof.
  revert o. induction ranks as [|r ranks IH]; intros o; cbn [fold_left].
  - left. reflexivity.
  - destruct (IH (Z.max o r)) as [H|H].
    + rewrite H. destruct (Z.max_spec o r) as [[_ ->]|[_ ->]]; [right; left|left];
        reflexivity.
    + right. right. assumption.
Qed.

(** C3: on a non-empty list of ratings whose labels are all in the
    severity table, [highest_warning] returns the largest of their ranks;
    on low, high, moderate it returns 4. *)
Theorem highest_warning_is_max_rank :
  (forall (d : list (string * value)) (drs : list value) (ranks : list Z),
      lookup "dangerRatings" d = Some (VList drs) ->
      drs <> [] ->
      Forall2 rating_of_rank drs ranks ->
      exists m,
        highest_warning (VDict d) = Ok (SInt m)
        /\ In m ranks /\ Forall (fun r => r <= m) ranks)
  /\ highest_warning
       (VDict [("dangerRatings",
                VList [VDict [("mainValue", VStr "low")];
                       VDict [("mainValue", VStr "high")];
                       VDict [("mainValue", VStr "moderate")]])])
     = Ok (SInt 4).
Proof.
  split; [|reflexivity].
  intros d drs ranks Hd Hne Hall.
  destruct Hall as [|dr n drs ranks Hdr Hrest]; [congruence|].
  exists (fold_left Z.max ranks n).
  assert (Hn : 1 <= n <= 5).
  { destruct Hdr as (rd & label & _ & _ & Hr).
    apply (severity_rank_range label n Hr). }
  split; [|split].
  - unfold highest_warning. cbn [py_get]. rewrite Hd. cbn [bind py_iter foldM].
    rewrite (highest_warning_body_rank None 0 n dr) by auto.
    cbn [bind]. replace (Z.max 0 n) with n by lia.
    rewrite (highest_warning_loop drs ranks Hrest _ n eq_refl). reflexivity.
  - destruct (fold_max_in ranks n) as [H|H].
    + rewrite H. left. reflexivity.
    + right. assumption.
  - destruct (fold_max_ge ranks n) as [H1 H2]. constructor; assumption.
Qed.

Lemma highest_warning_is_max_rank_witness :
  exists m,
    highest_warning
      (VDict [("dangerRatings",
               VList [VDict [("mainValue", VStr "moderate")];
                      VDict [("mainValue", VStr "very high")]])])
    = Ok (SInt m)
    /\ In m [2; 5] /\ Forall (fun r => r <= m) [2; 5].
Proof.
  apply (proj1 highest_warning_is_max_rank
           [("dangerRatings",
             VList [VDict [("mainValue", VStr "moderate")];
                    VDict [("mainValue", VStr "very high")]])]
           [VDict [("mainValue", VStr "moderate")];
            VDict [("mainValue", VStr "very high")]]
           [2; 5]).
  - reflexivity.
  - discriminate.
  - constructor; [|constructor; [|constructor]].
    + exists [("mainValue", VStr "moderate")], "moderate".
      repeat split; reflexivity.
    + exists [("mainValue", VStr "very high")], "very high".
      repeat split; reflexivity.
Defined.

(** ** Subdivision sign *)

Lemma warning_subdivision_first (d : list (string * value)) (dr : value)
  (rest : list value) :
  lookup "dangerRatings" d = Some (VList (dr :: rest)) ->
  warning_subdivision (VDict d)
  = (mainValue <- py_get dr "customData" VNone ;;
     ch <- py_get mainValue "CH" VNone ;;
     sub <- py_get ch "subdivision" VNone ;;
     sub_sign <- table_get_self subdiv_dict sub ;;
     Ok (if is_none sub_sign then SStr "" else sub_sign)).
Proof.
  intros Hd. unfold warning_subdivision. cbn [py_get]. rewrite Hd. reflexivity.
Qed.

(** C4: when the first rating has no [customData], or its [customData]
    has no [CH] entry, [warning_subdivision] raises [AttributeError]
    (it calls [.get] on [None]); only a missing [subdivision] key gives
    the empty string.  A present modifier goes through the table. *)
Theorem warning_subdivision_absent_custom_data_raises :
  warning_subdivision
    (VDict [("dangerRatings", VList [VDict [("mainValue", VStr "low")]])])
  = Raise AttributeError
  /\ warning_subdivision
       (VDict [("dangerRatings",
                VList [VDict [("mainValue", VStr "low");
                              ("customData", VDict [])]])])
     = Raise AttributeError
  /\ warning_subdivision
       (VDict [("dangerRatings",
                VList [VDict [("mainValue", VStr "low");
                              ("customData", VDict [("CH", VDict [])])]])])
     = Ok (SStr "")
  /\ (forall sub,
        warning_subdivision
          (VDict [("dangerRatings",
                   VList [VDict [("customData",
                            VDict [("CH", VDict [("subdivision", VStr sub)])])]])])
        = Ok (match lookup sub subdiv_dict with
              | Some sign => sign
              | None => SStr sub
              end)).
Proof.
  repeat split. intros sub.
  unfold warning_subdivision, table_get_self, lookup, subdiv_dict.
  cbn [py_get lookup assoc bind py_index0 hashable String.eqb Ascii.eqb
       Bool.eqb].
  unfold lookup. cbn [assoc].
  destruct (sub =? "neutral")%string; [reflexivity|].
  destruct (sub =? "minus")%string; [reflexivity|].
  destruct (sub =? "plus")%string; [reflexivity|].
  destruct (sub =? "equal")%string; reflexivity.
Qed.

(** C6: [warning_subdivision] reads the first rating only: two rating
    lists with the same first entry give the same result, value or
    exception. *)
Theorem warning_subdivision_first_entry_only
  (d1 d2 : list (string * value)) (dr : value) (rest1 rest2 : list value) :
  lookup "dangerRatings" d1 = Some (VList (dr :: rest1)) ->
  lookup "dangerRatings" d2 = Some (VList (dr :: rest2)) ->
  warning_subdivision (VDict d1) = warning_subdivision (VDict d2).
Proof.
  intros H1 H2.
  rewrite (warning_subdivision_first d1 dr rest1 H1).
  rewrite (warning_subdivision_first d2 dr rest2 H2).
  reflexivity.
Qed.

Lemma warning_subdivision_first_entry_only_witness :
  warning_subdivision (VDict [("dangerRatings", VList [sample_rating])])
  = warning_subdivision
      (VDict [("dangerRatings",
               VList [sample_rating;
                      VDict [("mainValue", VStr "high");
                             ("customData",
                              VDict [("CH", VDict [("subdivision", VStr "minus")])])];
                      VInt 7])]).
Proof.
  apply (warning_subdivision_first_entry_only
           [("dangerRatings", VList [sample_rating])]
           [("dangerRatings",
             VList [sample_rating;
                    VDict [("mainValue", VStr "high");
                           ("customData",
                            VDict [("CH", VDict [("subdivision", VStr "minus")])])];
                    VInt 7])]
           sample_rating []
           [VDict [("mainValue", VStr "high");
                   ("customData",
                    VDict [("CH", VDict [("subdivision", VStr "minus")])])];
            VInt 7]);
    reflexivity.
Defined.

(** ** Compass icon file names *)

Lemma string_compare_trans (a b c : string) :
  String.compare a b <> Gt -> String.compare b c <> Gt ->
  String.compare a c <> Gt.
Proof.
  revert b c.
  induction a as [|x a IH]; intros [|y b] [|z c]; cbn; try congruence.
  unfold Ascii.compare.
  destruct (N.compare_spec (N_of_ascii x) (N_of_ascii y)) as [Hxy|Hxy|Hxy];
    destruct (N.compare_spec (N_of_ascii y) (N_of_ascii z)) as [Hyz|Hyz|Hyz];
    destruct (N.compare_spec (N_of_ascii x) (N_of_ascii z)) as [Hxz|Hxz|Hxz];
    try congruence; try (exfalso; lia).
  apply IH.
Qed.

Lemma leb_trans (a b c : string) :
  String.leb a b = true -> String.leb b c = true -> String.leb a c = true.
Proof.
  unfold String.leb. intros Hab Hbc.
  assert (H := string_compare_trans a b c).
  destruct (String.compare a b); destruct (String.compare b c);
    destruct (String.compare a c); try reflexivity; try discriminate;
    exfalso; apply H; congruence.
Qed.

Lemma leb_false_flip (a b : string) :
  String.leb a b = false -> String.leb b a = true.
Proof.
  intros H. destruct (String.leb_total a b) as [H'|H']; congruence.
Qed.

Lemma insert_sorted_comm (x y : string) (l : list string) :
  insert_sorted x (insert_sorted y l) = insert_sorted y (insert_sorted x l).
Proof.
  induction l as [|z l IH]; cbn [insert_sorted].
  - destruct (String.leb x y) eqn:Exy, (String.leb y x) eqn:Eyx;
      cbn [insert_sorted]; rewrite ?Exy, ?Eyx; try reflexivity.
    + rewrite (String.leb_antisym x y Exy Eyx). reflexivity.
    + apply leb_false_flip in Exy. congruence.
  - destruct (String.leb y z) eqn:Eyz, (String.leb x z) eqn:Exz;
      cbn [insert_sorted]; rewrite ?Eyz, ?Exz.
    + destruct (String.leb x y) eqn:Exy, (String.leb y x) eqn:Eyx;
        cbn [insert_sorted]; rewrite ?Eyz, ?Exz; try reflexivity.
      * rewrite (String.leb_antisym x y Exy Eyx). reflexivity.
      * apply leb_false_flip in Exy. congruence.
    + destruct (String.leb x y) eqn:Exy; [|reflexivity].
      rewrite (leb_trans x y z Exy Eyz) in Exz. discriminate.
    + destruct (String.leb y x) eqn:Eyx; [|reflexivity].
      rewrite (leb_trans y x z Eyx Exz) in Eyz. discriminate.
    + rewrite IH. reflexivity.
Qed.

Lemma sorted_permutation (l l' : list string) :
  Permutation l l' -> sorted l = sorted l'.
Proof.
  induction 1 as [|x l l' _ IH|x y l|l l' l'' _ IH1 _ IH2]; cbn [sorted].
  - reflexivity.
  - rewrite IH. reflexivity.
  - apply insert_sorted_comm.
  - congruence.
Qed.

Lemma is_hex_hex_digit (n : Z) : is_hex (MD5.hex_digit n) = true.
Proof.
  unfold MD5.hex_digit. generalize (Z.to_nat n) as k. intros k.
  do 16 (destruct k as [|k]; [reflexivity|]).
  destruct k; reflexivity.
Qed.

Lemma hex_all_hex (bytes : list Z) : all_hex (MD5.hex bytes) = true.
Proof.
  induction bytes as [|b rest IH]; [reflexivity|].
  cbn [MD5.hex all_hex]. rewrite !is_hex_hex_digit, IH. reflexivity.
Qed.

Lemma hex_length (bytes : list Z) :
  String.length (MD5.hex bytes) = (2 * List.length bytes)%nat.
Proof.
  induction bytes as [|b rest IH]; [reflexivity|].
  cbn [MD5.hex String.length List.length]. rewrite IH. lia.
Qed.

Lemma digest_length (msg : list Z) : List.length (MD5.digest msg) = 16%nat.
Proof.
  unfold MD5.digest.
  destruct (MD5.blocks _ MD5.init _) as [[[a b] c] d].
  reflexivity.
Qed.

Lemma substring_prefix_length (n : nat) (s : string) :
  (n <= String.length s)%nat -> String.length (substring 0 n s) = n.
Proof.
  revert s. induction n as [|n IH]; intros s H.
  - destruct s; reflexivity.
  - destruct s as [|c s]; cbn in H; [lia|].
    cbn [substring String.length]. rewrite IH by lia. reflexivity.
Qed.

Lemma substring_prefix_all_hex (n : nat) (s : string) :
  all_hex s = true -> all_hex (substring 0 n s) = true.
Proof.
  revert s. induction n as [|n IH]; intros s H.
  - destruct s; reflexivity.
  - destruct s as [|c s]; [reflexivity|].
    cbn [all_hex] in H. apply andb_true_iff in H as [Hc Hs].
    cbn [substring all_hex]. rewrite Hc, IH by assumption. reflexivity.
Qed.

(** C9: the file name depends on the directions only up to order and
    letter case; N,E and E,N get the same name, N alone another one; and
    every name is [compass_fr_], ten hexadecimal digits, [.svg]. *)
Theorem filename_for_expos_stable :
  (forall expos expos' prefix fmt,
      Permutation (map upper expos) (map upper expos') ->
      filename_for_expos expos prefix fmt = filename_for_expos expos' prefix fmt)
  /\ filename_for_expos ["N"; "E"] default_prefix default_fmt
     = filename_for_expos ["E"; "N"] default_prefix default_fmt
  /\ filename_for_expos ["N"; "E"] default_prefix default_fmt
     <> filename_for_expos ["N"] default_prefix default_fmt
  /\ (forall expos, exists h,
        filename_for_expos expos default_prefix default_fmt
        = "compass_fr_" ++ h ++ ".svg"
        /\ String.length h = 10%nat /\ all_hex h = true).
Proof.
  split; [|split; [|split]].
  - intros expos expos' prefix fmt H. unfold filename_for_expos.
    rewrite (sorted_permutation _ _ H). reflexivity.
  - reflexivity.
  - vm_compute. discriminate.
  - intros expos. eexists. split; [reflexivity|]. split.
    + apply substring_prefix_length. unfold MD5.hexdigest.
      rewrite hex_length, digest_length. lia.
    + apply substring_prefix_all_hex, hex_all_hex.
Qed.

Lemma filename_for_expos_stable_witness :
  filename_for_expos ["ne"; "S"; "n"] default_prefix default_fmt
  = filename_for_expos ["N"; "NE"; "s"] default_prefix default_fmt.
Proof.
  apply (proj1 filename_for_expos_stable ["ne"; "S"; "n"] ["N"; "NE"; "s"]).
  cbn. apply perm_trans with (l' := ["NE"; "N"; "S"]).
  - apply perm_skip. apply perm_swap.
  - apply perm_swap.
Defined.

(** ** Inversion of successful computations *)

Lemma bind_ok {A B : Type} (r : result A) (k : A -> result B) (b : B) :
  bind r k = Ok b -> exists a, r = Ok a /\ k a = Ok b.
Proof. destruct r as [a|e]; cbn; [eauto|discriminate]. Qed.

Lemma bindM_ok {A B : Type} (m : M A) (k : A -> M B) (tr : list event) (b : B) :
  bindM m k = (tr, Ok b) ->
  exists tr1 a tr2,
    m = (tr1, Ok a) /\ k a = (tr2, Ok b) /\ tr = (tr1 ++ tr2)%list.
Proof.
  destruct m as [tr1 [a|e]]; cbn [bindM]; [|discriminate].
  destruct (k a) as [tr2 r] eqn:E. intros H. inversion H; subst.
  exists tr1, a, tr2. auto.
Qed.

Lemma lift_ok {A : Type} (r : result A) (tr : list event) (a : A) :
  lift r = (tr, Ok a) -> r = Ok a /\ tr = [].
Proof. unfold lift. intros H. inversion H. auto. Qed.

Lemma retM_ok {A : Type} (x a : A) (tr : list event) :
  retM x = (tr, Ok a) -> x = a /\ tr = [].
Proof. unfold retM. intros H. inversion H. auto. Qed.

(** ** The group dictionary *)

Lemma key_in_keys (k : group_key) (groups : groups_t) :
  key_in k groups = existsb (key_eqb k) (map fst groups).
Proof.
  unfold key_in. induction groups as [|[k' g] rest IH]; [reflexivity|].
  cbn. rewrite IH. reflexivity.
Qed.

Lemma update_group_keys (k : group_key) (f : group -> group) (groups : groups_t) :
  map fst (update_group k f groups) = map fst groups.
Proof.
  induction groups as [|[k' g] rest IH]; [reflexivity|].
  cbn [update_group]. destruct (key_eqb k k'); cbn [map fst]; congruence.
Qed.

Lemma update_group_in (k : group_key) (f : group -> group) (groups : groups_t)
  (k' : group_key) (g' : group) :
  In (k', g') (update_group k f groups) ->
  exists g, In (k', g) groups /\ (g' = g \/ g' = f g).
Proof.
  induction groups as [|[k0 g0] rest IH]; cbn [update_group]; [contradiction|].
  destruct (key_eqb k k0).
  - intros [H|H].
    + inversion H; subst. exists g0. split; [left; reflexivity|auto].
    + exists g'. split; [right; assumption|auto].
  - intros [H|H].
    + inversion H; subst. exists g'. split; [left; reflexivity|auto].
    + destruct (IH H) as (g & Hin & Hg). exists g. split; [right; assumption|auto].
Qed.

Section GroupBuilding.

Variable py_repr : value -> string.

(** What a successful pass of the loop body has done. *)
Lemma add_problem_ok (groups : groups_t) (ap : value) (tr : list event)
  (groups' : groups_t) :
  add_problem py_repr groups ap = (tr, Ok groups') ->
  exists elev k pt german,
    py_get ap "elevation" (VDict []) = Ok elev
    /\ record_key ap = Ok k
    /\ ((key_in k groups = true
         /\ groups' = update_group k (append_entry pt german ap) groups)
        \/ (key_in k groups = false
            /\ exists g,
                 elev_display py_repr elev = Ok (elev_text g, mountain_icon g)
                 /\ groups' = update_group k (append_entry pt german ap)
                                (push groups (k, g)))).
Proof.
  unfold add_problem. intros H.
  apply bindM_ok in H as (t1 & elev & t2 & H1 & H & ->).
  apply lift_ok in H1 as [Helev ->].
  apply bindM_ok in H as (t1 & aspects & t3 & H1 & H & ->).
  apply lift_ok in H1 as [Hasp ->].
  apply bindM_ok in H as (t1 & k & t4 & H1 & H & ->).
  apply lift_ok in H1 as [Hk ->].
  apply bindM_ok in H as (t1 & groups1 & t5 & Hg & H & ->).
  apply bindM_ok in H as (t6 & pt & t7 & H1 & H & ->).
  apply lift_ok in H1 as [Hpt ->].
  apply bindM_ok in H as (t8 & [pt' german] & t9 & H1 & H & ->).
  apply lift_ok in H1 as [Hlab ->].
  apply retM_ok in H as [<- ->].
  exists elev, k, pt', german.
  split; [assumption|]. split.
  { unfold record_key. rewrite Helev, Hasp. exact Hk. }
  destruct (key_in k groups) eqn:Ein; cbn [negb] in Hg.
  - left. apply retM_ok in Hg as [<- ->]. auto.
  - right. split; [reflexivity|].
    apply bindM_ok in Hg as (t10 & g & t11 & Hnew & Hg & ->).
    apply retM_ok in Hg as [<- ->].
    exists g. split; [|reflexivity].
    unfold new_group in Hnew.
    apply bindM_ok in Hnew as (u1 & [et icon] & u2 & H1 & Hnew & ->).
    apply lift_ok in H1 as [Hed ->].
    apply bindM_ok in Hnew as (u3 & [xt fr] & u4 & H1 & Hnew & ->).
    apply lift_ok in H1 as [Hxd ->].
    apply bindM_ok in Hnew as (u5 & [] & u6 & _ & Hnew & ->).
    apply bindM_ok in Hnew as (u7 & c & u8 & _ & Hnew & ->).
    apply retM_ok in Hnew as [<- _]. exact Hed.
Qed.

(** The keys of the dictionary after the loop are the keys of the
    records in the order of their first occurrence. *)
Lemma build_groups_keys (aps : list value) :
  forall (groups : groups_t) (tr : list event) (gs : groups_t),
    foldMM (add_problem py_repr) aps groups = (tr, Ok gs) ->
    exists ks,
      mapM record_key aps = Ok ks
      /\ map fst gs
         = fold_left (fun seen k => if existsb (key_eqb k) seen then seen
                                    else push seen k)
                     ks (map fst groups).
Proof.
  induction aps as [|ap aps IH]; intros groups tr gs H.
  - apply retM_ok in H as [<- _]. exists []. auto.
  - cbn [foldMM] in H.
    apply bindM_ok in H as (t1 & groups' & t2 & Hadd & Hrest & ->).
    destruct (IH _ _ _ Hrest) as (ks & Hks & Hkeys).
    destruct (add_problem_ok _ _ _ _ Hadd)
      as (elev & k & pt & german & _ & Hk & Hcase).
    exists (k :: ks). split.
    + cbn [mapM]. rewrite Hk, Hks. reflexivity.
    + cbn [fold_left]. rewrite Hkeys. rewrite <- key_in_keys.
      destruct Hcase as [[Hin ->]|[Hin (g & _ & ->)]]; rewrite Hin.
      * rewrite update_group_keys. reflexivity.
      * rewrite update_group_keys. unfold push. rewrite map_app. reflexivity.
Qed.

(** Every group carries the elevation text and icon computed from the
    elevation of a record that has the key of the group. *)
Lemma build_groups_elev (aps : list value) :
  forall (seen : list value) (groups : groups_t) (tr : list event)
         (gs : groups_t),
    Forall (elev_from_record py_repr seen) groups ->
    foldMM (add_problem py_repr) aps groups = (tr, Ok gs) ->
    Forall (elev_from_record py_repr (seen ++ aps)) gs.
Proof.
  induction aps as [|ap aps IH]; intros seen groups tr gs Hinv H.
  - apply retM_ok in H as [<- _]. rewrite app_nil_r. assumption.
  - cbn [foldMM] in H.
    apply bindM_ok in H as (t1 & groups' & t2 & Hadd & Hrest & ->).
    replace (seen ++ ap :: aps)%list with ((seen ++ [ap]) ++ aps)%list
      by (rewrite <- app_assoc; reflexivity).
    apply (IH _ groups' t2 gs); [|assumption].
    destruct (add_problem_ok _ _ _ _ Hadd)
      as (elev & k & pt & german & Helev & Hk & Hcase).
    assert (Hold : Forall (elev_from_record py_repr (seen ++ [ap])) groups).
    { eapply Forall_impl; [|exact Hinv].
      intros kg (ap' & e' & Hin & H1 & H2 & H3).
      exists ap', e'. repeat split; try assumption.
      apply in_or_app. left. assumption. }
    assert (Hupd : forall base,
               Forall (elev_from_record py_repr (seen ++ [ap])) base ->
               Forall (elev_from_record py_repr (seen ++ [ap]))
                      (update_group k (append_entry pt german ap) base)).
    { intros base Hbase. apply Forall_forall. intros [k' g'] Hin.
      apply update_group_in in Hin as (g & Hin & Hg).
      rewrite Forall_forall in Hbase. specialize (Hbase _ Hin).
      destruct Hg as [->| ->]; exact Hbase. }
    destruct Hcase as [[_ ->]|[_ (g & Hg & ->)]]; apply Hupd; [assumption|].
    unfold push. apply Forall_app. split; [assumption|].
    constructor; [|constructor].
    exists ap, elev. repeat split; try assumption.
    apply in_or_app. right. left. reflexivity.
Qed.

End GroupBuilding.

(** ** Elevation text and icon *)

Lemma is_none_true (v : value) : is_none v = true <-> v = VNone.
Proof.
  split; [|intros ->; reflexivity].
  destruct v as [[| | |]| |]; cbn; congruence.
Qed.

Lemma is_none_false (v : value) : is_none v = false <-> v <> VNone.
Proof.
  rewrite <- is_none_true. destruct (is_none v); split; congruence.
Qed.

Lemma elev_display_dict (py_repr : value -> string)
  (d : list (string * value)) :
  d <> [] ->
  elev_display py_repr (VDict d)
  = let lower := bound d "lowerBound" in
    let upper := bound d "upperBound" in
    if is_none lower && negb (is_none upper) then
      Ok ("en dessous de " ++ py_str py_repr upper ++ "m", "below_mountain.png")
    else if is_none upper && negb (is_none lower) then
      Ok ("à plus de " ++ py_str py_repr lower ++ "m", "above_mountain.png")
    else
      Ok (if negb (is_none lower) && negb (is_none upper)
          then py_str py_repr lower ++ "-" ++ py_str py_repr upper ++ "m"
          else "toutes les altitudes",
          "all_mountain.png").
Proof.
  intros Hd. destruct d as [|kv d']; [congruence|]. reflexivity.
Qed.

(** C8: the elevation text and icon of a group are those of a record
    with the key of the group, and follow the four cases: only an upper
    bound, "en dessous de" and the below icon; only a lower bound, "à
    plus de" and the above icon; both bounds, "lower-upper"; no bound or
    no elevation, "toutes les altitudes" and the all icon. *)
Theorem elev_display_cases (py_repr : value -> string) :
  (forall d, d <> [] ->
      bound d "lowerBound" = VNone -> bound d "upperBound" <> VNone ->
      elev_display py_repr (VDict d)
      = Ok ("en dessous de " ++ py_str py_repr (bound d "upperBound") ++ "m",
            "below_mountain.png"))
  /\ (forall d, d <> [] ->
        bound d "upperBound" = VNone -> bound d "lowerBound" <> VNone ->
        elev_display py_repr (VDict d)
        = Ok ("à plus de " ++ py_str py_repr (bound d "lowerBound") ++ "m",
              "above_mountain.png"))
  /\ (forall d, d <> [] ->
        bound d "lowerBound" <> VNone -> bound d "upperBound" <> VNone ->
        elev_display py_repr (VDict d)
        = Ok (py_str py_repr (bound d "lowerBound") ++ "-"
              ++ py_str py_repr (bound d "upperBound") ++ "m",
              "all_mountain.png"))
  /\ (forall d, d <> [] ->
        bound d "lowerBound" = VNone -> bound d "upperBound" = VNone ->
        elev_display py_repr (VDict d)
        = Ok ("toutes les altitudes", "all_mountain.png"))
  /\ elev_display py_repr (VDict [])
     = Ok ("toutes les altitudes", "all_mountain.png")
  /\ elev_display py_repr VNone = Ok ("toutes les altitudes", "all_mountain.png")
  /\ (forall aps tr gs,
        build_groups py_repr aps = (tr, Ok gs) ->
        Forall (elev_from_record py_repr aps) gs).
Proof.
  repeat split.
  - intros d Hd Hlo Hhi. rewrite elev_display_dict by assumption. cbn zeta.
    apply is_none_true in Hlo. apply is_none_false in Hhi.
    rewrite Hlo, Hhi. reflexivity.
  - intros d Hd Hhi Hlo. rewrite elev_display_dict by assumption. cbn zeta.
    apply is_none_true in Hhi. apply is_none_false in Hlo.
    rewrite Hlo, Hhi. reflexivity.
  - intros d Hd Hlo Hhi. rewrite elev_display_dict by assumption. cbn zeta.
    apply is_none_false in Hhi. apply is_none_false in Hlo.
    rewrite Hlo, Hhi. reflexivity.
  - intros d Hd Hlo Hhi. rewrite elev_display_dict by assumption. cbn zeta.
    apply is_none_true in Hhi. apply is_none_true in Hlo.
    rewrite Hlo, Hhi. reflexivity.
  - intros aps tr gs H.
    apply (build_groups_elev py_repr aps [] [] tr gs); [constructor|exact H].
Qed.

Lemma elev_display_cases_witness :
  elev_display repr_unused (VDict [("upperBound", VInt 1800)])
  = Ok ("en dessous de 1800m", "below_mountain.png")
  /\ elev_display repr_unused (VDict [("lowerBound", VInt 2200)])
     = Ok ("à plus de 2200m", "above_mountain.png")
  /\ elev_display repr_unused
       (VDict [("lowerBound", VInt 1800); ("upperBound", VInt 2400)])
     = Ok ("1800-2400m", "all_mountain.png")
  /\ elev_display repr_unused
       (VDict [("lowerBound", VNone); ("upperBound", VNone)])
     = Ok ("toutes les altitudes", "all_mountain.png")
  /\ (exists tr gs,
        build_groups repr_unused [sample_problem; sample_problem] = (tr, Ok gs)
        /\ Forall (elev_from_record repr_unused [sample_problem; sample_problem])
                  gs).
Proof.
  destruct (elev_display_cases repr_unused) as (H1 & H2 & H3 & H4 & _ & _ & H5).
  split; [|split; [|split; [|split]]].
  - apply (H1 [("upperBound", VInt 1800)]); [discriminate|reflexivity|discriminate].
  - apply (H2 [("lowerBound", VInt 2200)]); [discriminate|reflexivity|discriminate].
  - apply (H3 [("lowerBound", VInt 1800); ("upperBound", VInt 2400)]);
      discriminate.
  - apply (H4 [("lowerBound", VNone); ("upperBound", VNone)]);
      [discriminate|reflexivity|reflexivity].
  - destruct (build_groups repr_unused [sample_problem; sample_problem])
      as [tr [gs|e]] eqn:E.
    + exists tr, gs. split; [reflexivity|].
      apply (H5 [sample_problem; sample_problem] tr gs E).
    + vm_compute in E. discriminate E.
Defined.

(** ** Keys of records with an elevation without bounds *)

Lemma record_key_tag (d : list (string * value)) (k : group_key) :
  record_key (VDict d) = Ok k ->
  exists lower upper,
    _elev_key (match lookup "elevation" d with Some x => x | None => VDict [] end)
    = Ok (key_tag k, lower, upper).
Proof.
  unfold record_key, key_of. cbn [py_get bind]. intros H.
  apply bind_ok in H as ([[tag lo] hi] & Hek & H).
  apply bind_ok in H as (ak & _ & H).
  apply bind_ok in H as (ck & _ & H).
  unfold hash_key in H.
  apply bind_ok in H as (lo' & _ & H).
  apply bind_ok in H as (hi' & _ & H).
  apply bind_ok in H as (asp & _ & H).
  inversion H; subst. exists lo, hi. exact Hek.
Qed.

Lemma key_eqb_tag (k1 k2 : group_key) :
  (key_tag k1 =? key_tag k2)%string = false -> key_eqb k1 k2 = false.
Proof.
  destruct k1 as [[[[t1 lo1] hi1] a1] c1], k2 as [[[[t2 lo2] hi2] a2] c2].
  unfold key_tag, key_eqb. cbn [fst]. intros ->. reflexivity.
Qed.

Lemma append_entry_elev (pt german : scalar) (ap : value) (g : group) :
  elev_text (append_entry pt german ap g) = elev_text g
  /\ mountain_icon (append_entry pt german ap g) = mountain_icon g.
Proof. split; reflexivity. Qed.

(** C10: a non-empty elevation dict without bounds gets the key
    [('range', None, None)], which differs from [('all', None, None)] of
    an absent or empty elevation; a record with the one and a record
    with the other land in two groups, and both groups show "toutes les
    altitudes" with the all icon. *)
Theorem elev_key_null_bounds_own_group (py_repr : value -> string)
  (d : list (string * value)) :
  d <> [] -> bound d "lowerBound" = VNone -> bound d "upperBound" = VNone ->
  _elev_key (VDict d) = Ok ("range", VNone, VNone)
  /\ _elev_key (VDict d) <> _elev_key VNone
  /\ _elev_key (VDict d) <> _elev_key (VDict [])
  /\ elev_display py_repr (VDict d)
     = Ok ("toutes les altitudes", "all_mountain.png")
  /\ elev_display py_repr (VDict d) = elev_display py_repr (VDict [])
  /\ (forall rest tr gs,
        lookup "elevation" rest = None ->
        build_groups py_repr
          [VDict (("elevation", VDict d) :: rest); VDict rest] = (tr, Ok gs) ->
        exists k1 g1 k2 g2,
          gs = [(k1, g1); (k2, g2)]
          /\ key_eqb k1 k2 = false
          /\ elev_text g1 = "toutes les altitudes"
          /\ elev_text g2 = "toutes les altitudes"
          /\ mountain_icon g1 = "all_mountain.png"
          /\ mountain_icon g2 = "all_mountain.png").
Proof.
  intros Hd Hlo Hhi.
  assert (Hkey : _elev_key (VDict d) = Ok ("range", VNone, VNone)).
  { rewrite elev_key_dict by assumption. rewrite Hlo, Hhi. reflexivity. }
  assert (Hdisp : elev_display py_repr (VDict d)
                  = Ok ("toutes les altitudes", "all_mountain.png")).
  { rewrite elev_display_dict by assumption. cbn zeta.
    rewrite Hlo, Hhi. reflexivity. }
  split; [exact Hkey|]. rewrite Hkey.
  split; [cbn; discriminate|]. split; [cbn; discriminate|].
  split; [exact Hdisp|]. split; [rewrite Hdisp; reflexivity|].
  intros rest tr gs Hrest H.
  unfold build_groups in H. cbn [foldMM] in H.
  apply bindM_ok in H as (t1 & groups1 & t2 & Hadd1 & H & ->).
  apply bindM_ok in H as (t3 & groups2 & t4 & Hadd2 & H & ->).
  apply retM_ok in H as [<- ->].
  destruct (add_problem_ok _ _ _ _ _ Hadd1)
    as (e1 & k1 & pt1 & ge1 & He1 & Hk1 & Hc1).
  destruct (add_problem_ok _ _ _ _ _ Hadd2)
    as (e2 & k2 & pt2 & ge2 & He2 & Hk2 & Hc2).
  cbn [py_get] in He1, He2. rewrite lookup_cons_eq in He1. rewrite Hrest in He2.
  inversion He1; subst e1. inversion He2; subst e2. clear He1 He2.
  destruct (record_key_tag _ _ Hk1) as (lo1 & hi1 & Ht1).
  destruct (record_key_tag _ _ Hk2) as (lo2 & hi2 & Ht2).
  rewrite lookup_cons_eq, Hkey in Ht1. rewrite Hrest in Ht2. cbn in Ht2.
  injection Ht1 as Htag1 _ _. injection Ht2 as Htag2 _ _.
  assert (H12 : key_eqb k1 k2 = false).
  { apply key_eqb_tag. rewrite <- Htag1, <- Htag2. reflexivity. }
  assert (H21 : key_eqb k2 k1 = false).
  { apply key_eqb_tag. rewrite <- Htag1, <- Htag2. reflexivity. }
  destruct Hc1 as [[Hin _]|[_ (g1 & Hg1 & Hgroups1)]]; [discriminate Hin|].
  rewrite Hdisp in Hg1. inversion Hg1 as [[Het1 Hic1]].
  assert (Hshape : exists g1', groups1 = [(k1, g1')]
                               /\ elev_text g1' = elev_text g1
                               /\ mountain_icon g1' = mountain_icon g1).
  { rewrite Hgroups1. cbn. destruct (key_eqb k1 k1); eexists; split;
      try reflexivity; split; reflexivity. }
  destruct Hshape as (g1' & -> & Het1' & Hic1').
  destruct Hc2 as [[Hin _]|[_ (g2 & Hg2 & ->)]].
  { cbn in Hin. rewrite H21 in Hin. discriminate Hin. }
  cbn in Hg2. inversion Hg2 as [[Het2 Hic2]].
  cbn [push app update_group]. rewrite H21.
  destruct (key_eqb k2 k2).
  - exists k1, g1', k2, (append_entry pt2 ge2 (VDict rest) g2).
    repeat split; try assumption; cbn [append_entry elev_text mountain_icon];
      congruence.
  - exists k1, g1', k2, g2. repeat split; try assumption; congruence.
Qed.

Lemma elev_key_null_bounds_own_group_witness :
  _elev_key (VDict [("lowerBound", VNone)]) = Ok ("range", VNone, VNone)
  /\ exists tr k1 g1 k2 g2,
       build_groups repr_unused
         [VDict [("elevation", VDict [("lowerBound", VNone)]);
                 ("problemType", VStr "wet_snow")];
          VDict [("problemType", VStr "wet_snow")]]
       = (tr, Ok [(k1, g1); (k2, g2)])
       /\ key_eqb k1 k2 = false
       /\ elev_text g1 = elev_text g2
       /\ mountain_icon g1 = mountain_icon g2.
Proof.
  destruct (elev_key_null_bounds_own_group repr_unused [("lowerBound", VNone)])
    as (H1 & _ & _ & _ & _ & H6);
    [discriminate|reflexivity|reflexivity|].
  split; [exact H1|].
  destruct (build_groups repr_unused
              [VDict [("elevation", VDict [("lowerBound", VNone)]);
                      ("problemType", VStr "wet_snow")];
               VDict [("problemType", VStr "wet_snow")]])
    as [tr [gs|e]] eqn:E.
  - destruct (H6 [("problemType", VStr "wet_snow")] tr gs eq_refl E)
      as (k1 & g1 & k2 & g2 & -> & Hk & Ht1 & Ht2 & Hi1 & Hi2).
    exists tr, k1, g1, k2, g2. repeat split; congruence.
  - vm_compute in E. discriminate E.
Defined.

(** ** Well-formed records are grouped without an exception *)

Lemma succeeds_lift {A B : Type} (r : result A) (a : A) (k : A -> M B) :
  r = Ok a -> succeeds (k a) -> succeeds (bindM (lift r) k).
Proof.
  intros -> (tr & b & Hk). exists tr, b. unfold lift. cbn [bindM].
  rewrite Hk. reflexivity.
Qed.

Lemma succeeds_bindM {A B : Type} (m : M A) (k : A -> M B) :
  succeeds m -> (forall a, succeeds (k a)) -> succeeds (bindM m k).
Proof.
  intros (tr & a & ->) Hk. destruct (Hk a) as (tr' & b & Hb).
  exists (tr ++ tr')%list, b. cbn [bindM]. rewrite Hb. reflexivity.
Qed.

Lemma succeeds_retM {A : Type} (a : A) : succeeds (retM a).
Proof. exists [], a. reflexivity. Qed.

Lemma elev_key_wf (v : value) :
  wf_elevation v = true ->
  exists tag (lo hi : scalar), _elev_key v = Ok (tag, Sc lo, Sc hi).
Proof.
  destruct v as [[| | |]| |d]; cbn [wf_elevation]; try discriminate.
  - intros _. exists "all", SNone, SNone. reflexivity.
  - destruct d as [|kv d'].
    + intros _. exists "all", SNone, SNone. reflexivity.
    + rewrite elev_key_dict by discriminate.
      destruct (bound (kv :: d') "lowerBound") as [lo| |]; try discriminate.
      destruct (bound (kv :: d') "upperBound") as [hi| |]; try discriminate.
      intros _. exists "range", lo, hi. reflexivity.
Qed.

Lemma elev_display_wf (py_repr : value -> string) (v : value) :
  wf_elevation v = true -> exists r, elev_display py_repr v = Ok r.
Proof.
  destruct v as [[| | |]| |d]; cbn [wf_elevation]; try discriminate.
  - intros _. eexists. reflexivity.
  - intros _. destruct d as [|kv d']; [eexists; reflexivity|].
    rewrite elev_display_dict by discriminate. cbn zeta.
    destruct (is_none (bound (kv :: d') "lowerBound")),
             (is_none (bound (kv :: d') "upperBound"));
      cbn [andb negb]; eexists; reflexivity.
Qed.

Lemma strs_are_scalars (l : list value) :
  forallb (fun x => match x with VStr _ => true | _ => false end) l = true ->
  exists ts, l = map (fun t => VStr t) ts.
Proof.
  induction l as [|x l IH]; cbn [forallb].
  - intros _. exists []. reflexivity.
  - destruct x as [[| | |t]| |]; try discriminate. cbn [andb]. intros H.
    destruct (IH H) as (ts & ->). exists (t :: ts). reflexivity.
Qed.

Lemma mapM_hashable_strs (ts : list string) :
  mapM hashable (map (fun t => VStr t) ts) = Ok (map SStr ts).
Proof.
  induction ts as [|t ts IH]; [reflexivity|].
  cbn [map mapM hashable bind]. rewrite IH. reflexivity.
Qed.

Lemma aspects_key_wf (v : value) :
  wf_aspects v = true ->
  exists asp, (ak <- _aspects_key v ;; mapM hashable ak) = Ok asp.
Proof.
  destruct v as [[| | |]|l|]; cbn [wf_aspects]; try discriminate.
  - intros _. eexists. reflexivity.
  - intros H. destruct (strs_are_scalars l H) as (ts & ->).
    unfold _aspects_key.
    destruct (in_none_empty_or _ _); cbn [bind py_iter].
    + eexists. reflexivity.
    + rewrite mapM_hashable_strs. eexists. reflexivity.
Qed.

Lemma comment_key_wf (v : value) :
  wf_comment v = true -> exists ck, _comment_key v = Ok ck.
Proof.
  destruct v as [[| | |t]| |]; cbn [wf_comment]; try discriminate; intros _.
  - eexists. reflexivity.
  - unfold _comment_key. destruct (truthy (VStr t)); eexists; reflexivity.
Qed.

Lemma translate_aspect_str (t : string) :
  exists u, translate_aspect (VStr t) = Ok (SStr u).
Proof.
  unfold translate_aspect, table_get, lookup, aspects_dict.
  cbn [hashable bind assoc].
  repeat match goal with
         | |- context [if (t =? ?c)%string then _ else _] =>
             destruct (t =? c)%string
         end;
    eexists; reflexivity.
Qed.

Lemma expo_display_wf (v : value) :
  wf_aspects v = true -> exists r, expo_display v = Ok r.
Proof.
  destruct v as [[| | |]|l|]; cbn [wf_aspects]; try discriminate.
  - intros _. eexists. reflexivity.
  - intros H. destruct (strs_are_scalars l H) as (ts & ->).
    unfold expo_display. destruct (in_none_empty_or _ _); [eexists; reflexivity|].
    cbn [py_iter bind]. clear H.
    assert (Hm : exists us,
               mapM translate_aspect (map (fun t => VStr t) ts)
               = Ok (map SStr us)).
    { induction ts as [|t ts IH]; [exists []; reflexivity|].
      destruct IH as (us & IH). destruct (translate_aspect_str t) as (u & Hu).
      exists (u :: us). cbn [map mapM]. rewrite Hu, IH. reflexivity. }
    destruct Hm as (us & ->). cbn [bind]. unfold join_aspects.
    assert (Hs : all_strs (map SStr us) = Ok us).
    { unfold all_strs. induction us as [|u us IH]; [reflexivity|].
      cbn [map mapM bind]. rewrite IH. reflexivity. }
    rewrite Hs. eexists. reflexivity.
Qed.

(** The loop body, and so the whole loop, ends without an exception on
    well-formed records. *)
Lemma add_problem_total (py_repr : value -> string) (groups : groups_t)
  (ap : value) :
  wf_problem ap = true -> succeeds (add_problem py_repr groups ap).
Proof.
  destruct ap as [a|l|d]; cbn [wf_problem]; try discriminate.
  intros H.
  apply andb_true_iff in H as [H Hpt].
  apply andb_true_iff in H as [H Hco].
  apply andb_true_iff in H as [Hel Has].
  unfold add_problem.
  eapply succeeds_lift; [reflexivity|].
  eapply succeeds_lift; [reflexivity|].
  fold (bound d "aspects").
  destruct (elev_key_wf _ Hel) as (tag & lo & hi & Hek).
  destruct (aspects_key_wf _ Has) as (asp & Hak).
  destruct (comment_key_wf _ Hco) as (ck & Hck).
  apply bind_ok in Hak as (ak & Hak & Hasp).
  eapply succeeds_lift.
  { unfold key_of. rewrite Hek. cbn [bind]. rewrite Hak. cbn [bind py_get].
    fold (bound d "comment"). rewrite Hck. cbn [bind hash_key hashable].
    rewrite Hasp. reflexivity. }
  apply succeeds_bindM.
  - destruct (negb (key_in _ groups)); [|apply succeeds_retM].
    apply succeeds_bindM; [|intros; apply succeeds_retM].
    unfold new_group.
    destruct (elev_display_wf py_repr _ Hel) as ([et icon] & Hed).
    destruct (expo_display_wf _ Has) as ([xt fr] & Hxd).
    eapply succeeds_lift; [exact Hed|].
    eapply succeeds_lift; [exact Hxd|].
    apply succeeds_bindM; [eexists; eexists; reflexivity|intros _].
    eapply succeeds_lift; [reflexivity|apply succeeds_retM].
  - intros groups1.
    eapply succeeds_lift; [reflexivity|].
    fold (bound d "problemType").
    destruct (bound d "problemType") as [pt| |]; try discriminate.
    eapply succeeds_lift; [reflexivity|apply succeeds_retM].
Qed.

Lemma build_groups_total (py_repr : value -> string) (aps : list value) :
  forallb wf_problem aps = true -> succeeds (build_groups py_repr aps).
Proof.
  unfold build_groups. generalize (@nil (group_key * group)) as groups.
  induction aps as [|ap aps IH]; intros groups H; cbn [foldMM].
  - apply succeeds_retM.
  - cbn [forallb] in H. apply andb_true_iff in H as [Hap Haps].
    apply succeeds_bindM; [apply add_problem_total; exact Hap|].
    intros groups'. apply IH. exact Haps.
Qed.

(** ** Classification and order of the groups *)

Lemma scalar_eqb_str (a : scalar) (s : string) :
  scalar_eqb a (SStr s) = true <-> a = SStr s.
Proof.
  destruct a as [|b|n|t]; cbn; split; try congruence.
  - intros H. apply String.eqb_eq in H. congruence.
  - intros H. inversion H. apply String.eqb_refl.
Qed.

Lemma is_pure_other_iff (entries : list (scalar * scalar)) :
  is_pure_other entries = true
  <-> forall pt label,
        In (pt, label) entries -> pt = SStr "no_distinct_avalanche_problem".
Proof.
  unfold is_pure_other. rewrite forallb_forall. split.
  - intros H pt label Hin. apply scalar_eqb_str. apply (H (pt, label) Hin).
  - intros H [pt label] Hin. apply scalar_eqb_str. apply (H pt label Hin).
Qed.

Lemma classify_acc (gs : list group) :
  forall normal other,
    fold_left
      (fun (acc : list group * list group) g =>
         let '(normal_groups, other_groups) := acc in
         if is_pure_other (problem_entries g)
         then (normal_groups, push other_groups g)
         else (push normal_groups g, other_groups))
      gs (normal, other)
    = ((normal ++ filter (fun g => negb (is_other g)) gs)%list,
       (other ++ filter is_other gs)%list).
Proof.
  induction gs as [|g gs IH]; intros normal other; cbn [fold_left filter].
  - rewrite !app_nil_r. reflexivity.
  - change (is_pure_other (problem_entries g)) with (is_other g).
    destruct (is_other g);
      cbn [negb]; rewrite IH; unfold push; rewrite <- ?app_assoc; reflexivity.
Qed.

Lemma classify_filter (gs : list group) :
  classify gs = (filter (fun g => negb (is_other g)) gs, filter is_other gs).
Proof. unfold classify. rewrite classify_acc. reflexivity. Qed.

Lemma render_type_row_app (h : list string) (e : scalar * scalar) :
  render_type_row h e = (h ++ render_type_row [] e)%list.
Proof.
  unfold render_type_row. destruct e as [pt german].
  destruct (negb (scalar_eqb pt (SStr "no_distinct_avalanche_problem")));
    unfold push; rewrite <- ?app_assoc; reflexivity.
Qed.

Lemma fold_left_append_only {A : Type} (f : list string -> A -> list string)
  (l : list A) :
  (forall h x, f h x = (h ++ f [] x)%list) ->
  forall h, fold_left f l h = (h ++ flat_map (f []) l)%list.
Proof.
  intros Hf. induction l as [|x l IH]; intros h; cbn [fold_left flat_map].
  - rewrite app_nil_r. reflexivity.
  - rewrite IH, (Hf h x), <- app_assoc. reflexivity.
Qed.

Lemma render_group_card_app (py_repr : value -> string) (h : list string)
  (g : group) :
  render_group_card py_repr h g = (h ++ render_group_card py_repr [] g)%list.
Proof.
  unfold render_group_card.
  rewrite !(fold_left_append_only render_type_row _ render_type_row_app).
  destruct (negb (mountain_icon g =? "")%string),
           (negb (fname g =? "")%string);
    unfold push; cbn [app]; rewrite <- ?app_assoc; reflexivity.
Qed.

Lemma render_groups_cards (py_repr : value -> string) (groups : groups_t)
  (html_output : list string) :
  render_groups py_repr groups html_output
  = (html_output
     ++ ["<div style='display:grid; grid-template-columns:repeat(2, minmax(0, 1fr)); gap:40px; align-items:start; margin-bottom:30px;'>"]
     ++ flat_map (render_group_card py_repr [])
          (filter (fun g => negb (is_other g)) (map snd groups))
     ++ flat_map (render_group_card py_repr [])
          (filter is_other (map snd groups)))%list.
Proof.
  unfold render_groups. rewrite classify_filter.
  rewrite !(fold_left_append_only _ _ (render_group_card_app py_repr)).
  unfold push. rewrite <- !app_assoc. reflexivity.
Qed.

Lemma render_group_card_shows (py_repr : value -> string) (g : group) :
  exists rest,
    render_group_card py_repr [] g
    = "<div style='min-width:0; box-sizing:border-box;'>" :: rest
    /\ In ("<p style='margin:0; overflow-wrap:anywhere; word-break:break-word;'><b style='font-weight:700;'>Plage d'altitude:</b> "
           ++ elev_text g ++ "</p>") rest
    /\ In ("<p style='margin:0; overflow-wrap:anywhere; word-break:break-word;'><b style='font-weight:700;'>Exposition:</b> "
           ++ expo_text g ++ "</p>") rest
    /\ In ("<p style='margin:0; overflow-wrap:anywhere; word-break:break-word;'><b style='font-weight:700;'>Description des dangers:</b> "
           ++ py_str py_repr (comment g) ++ "</p>") rest.
Proof.
  unfold render_group_card.
  rewrite (fold_left_append_only render_type_row _ render_type_row_app).
  destruct (negb (mountain_icon g =? "")%string),
           (negb (fname g =? "")%string);
    unfold push; cbn [app]; rewrite <- ?app_assoc; cbn [app];
    (eexists; split; [reflexivity|]);
    cbn [In]; rewrite !in_app_iff; cbn [In]; auto 20.
Qed.

(** C5: a group is "other" exactly when every entry has the problem
    type [no_distinct_avalanche_problem], and the split sends exactly
    these groups to [other_groups], keeping the order of the groups in
    both lists; the render lines of the page append, after the grid
    container, the cards of the ordinary groups in the order of the
    groups and then the cards of the other groups in that order, every
    card opening with its own container and carrying the elevation,
    exposition and comment of its group; and the groups come out of the
    loop in the order in which their keys were first seen (the loop ends
    without an exception on well-formed records). *)
Theorem groups_two_bucket_order (py_repr : value -> string) :
  (forall g,
      is_other g = true
      <-> forall pt label,
            In (pt, label) (problem_entries g) ->
            pt = SStr "no_distinct_avalanche_problem")
  /\ (forall gs,
        classify gs
        = (filter (fun g => negb (is_other g)) gs, filter is_other gs))
  /\ (forall groups html_output,
        render_groups py_repr groups html_output
        = (html_output
           ++ ["<div style='display:grid; grid-template-columns:repeat(2, minmax(0, 1fr)); gap:40px; align-items:start; margin-bottom:30px;'>"]
           ++ flat_map (render_group_card py_repr [])
                (filter (fun g => negb (is_other g)) (map snd groups))
           ++ flat_map (render_group_card py_repr [])
                (filter is_other (map snd groups)))%list)
  /\ (forall g, exists rest,
        render_group_card py_repr [] g
        = "<div style='min-width:0; box-sizing:border-box;'>" :: rest
        /\ In ("<p style='margin:0; overflow-wrap:anywhere; word-break:break-word;'><b style='font-weight:700;'>Plage d'altitude:</b> "
               ++ elev_text g ++ "</p>") rest
        /\ In ("<p style='margin:0; overflow-wrap:anywhere; word-break:break-word;'><b style='font-weight:700;'>Exposition:</b> "
               ++ expo_text g ++ "</p>") rest
        /\ In ("<p style='margin:0; overflow-wrap:anywhere; word-break:break-word;'><b style='font-weight:700;'>Description des dangers:</b> "
               ++ py_str py_repr (comment g) ++ "</p>") rest)
  /\ (forall aps tr groups,
        build_groups py_repr aps = (tr, Ok groups) ->
        exists ks,
          mapM record_key aps = Ok ks /\ map fst groups = first_seen ks)
  /\ (forall aps,
        forallb wf_problem aps = true -> succeeds (build_groups py_repr aps)).
Proof.
  split; [|split; [|split; [|split; [|split]]]].
  - intros g. apply is_pure_other_iff.
  - apply classify_filter.
  - apply render_groups_cards.
  - apply render_group_card_shows.
  - intros aps tr groups H.
    apply (build_groups_keys py_repr aps [] tr groups H).
  - apply build_groups_total.
Qed.

Lemma groups_two_bucket_order_witness :
  exists tr k1 g1 k2 g2 ks,
    build_groups repr_unused
      [VDict [("problemType", VStr "no_distinct_avalanche_problem");
              ("comment", VStr "a")];
       sample_problem;
       VDict [("problemType", VStr "no_distinct_avalanche_problem");
              ("comment", VStr " a ")];
       sample_problem]
    = (tr, Ok [(k1, g1); (k2, g2)])
    /\ mapM record_key
         [VDict [("problemType", VStr "no_distinct_avalanche_problem");
                 ("comment", VStr "a")];
          sample_problem;
          VDict [("problemType", VStr "no_distinct_avalanche_problem");
                 ("comment", VStr " a ")];
          sample_problem]
       = Ok ks
    /\ [k1; k2] = first_seen ks
    /\ is_other g1 = true
    /\ is_other g2 = false
    /\ render_groups repr_unused [(k1, g1); (k2, g2)] []
       = ("<div style='display:grid; grid-template-columns:repeat(2, minmax(0, 1fr)); gap:40px; align-items:start; margin-bottom:30px;'>"
          :: render_group_card repr_unused [] g2
          ++ render_group_card repr_unused [] g1)%list
    /\ succeeds (build_groups repr_unused [sample_problem; sample_problem]).
Proof.
  destruct (build_groups repr_unused
      [VDict [("problemType", VStr "no_distinct_avalanche_problem");
              ("comment", VStr "a")];
       sample_problem;
       VDict [("problemType", VStr "no_distinct_avalanche_problem");
              ("comment", VStr " a ")];
       sample_problem]) as [tr [groups|e]] eqn:E.
  - destruct (groups_two_bucket_order repr_unused)
      as (_ & _ & Hrender & _ & Hkeys & Htotal).
    destruct (Hkeys _ tr groups E) as (ks & Hks & Horder).
    pose proof (Hrender groups []) as Hcards.
    vm_compute in E. injection E as _ <-.
    do 5 eexists. exists ks.
    split; [reflexivity|]. split; [exact Hks|]. split; [exact Horder|].
    split; [reflexivity|]. split; [reflexivity|].
    split; [|apply Htotal; reflexivity].
    exact Hcards.
  - vm_compute in E. discriminate E.
Defined.

(** ** The files of a run *)

Lemma files_written_app (tr1 tr2 : list event) :
  files_written (tr1 ++ tr2) = (files_written tr1 ++ files_written tr2)%list.
Proof. unfold files_written. apply flat_map_app. Qed.

Lemma quiet_lift {A : Type} (r : result A) : files_written (fst (lift r)) = [].
Proof. reflexivity. Qed.

Lemma quiet_bindM {A B : Type} (m : M A) (k : A -> M B) :
  files_written (fst m) = [] ->
  (forall a, files_written (fst (k a)) = []) ->
  files_written (fst (bindM m k)) = [].
Proof.
  intros Hm Hk. destruct m as [tr [a|e]]; cbn [bindM fst] in *; [|assumption].
  specialize (Hk a). destruct (k a) as [tr' r]. cbn [fst] in *.
  rewrite files_written_app, Hm, Hk. reflexivity.
Qed.

Lemma quiet_foldMM {A S : Type} (f : S -> A -> M S) (l : list A) :
  (forall s x, files_written (fst (f s x)) = []) ->
  forall s, files_written (fst (foldMM f l s)) = [].
Proof.
  intros Hf. induction l as [|x l IH]; intros s; cbn [foldMM].
  - reflexivity.
  - apply quiet_bindM; [apply Hf|apply IH].
Qed.

Lemma quiet_add_problem (py_repr : value -> string) (groups : groups_t)
  (ap : value) :
  files_written (fst (add_problem py_repr groups ap)) = [].
Proof.
  unfold add_problem.
  repeat (apply quiet_bindM; [try apply quiet_lift|intros ?]).
  - destruct (negb (key_in a1 groups)); [|reflexivity].
    apply quiet_bindM; [|reflexivity].
    unfold new_group.
    apply quiet_bindM; [apply quiet_lift|intros [et icon]].
    apply quiet_bindM; [apply quiet_lift|intros [xt fr]].
    apply quiet_bindM; [reflexivity|intros _].
    apply quiet_bindM; [apply quiet_lift|reflexivity].
  - destruct a4. reflexivity.
Qed.

Lemma footer_date_raises (ACTIVE_AT : datetime) :
  footer_date ACTIVE_AT = Raise AttributeError.
Proof. reflexivity. Qed.

Lemma quiet_build_page (py_repr : value -> string) (BASE : string)
  (ACTIVE_AT : datetime) (region_info : value) :
  files_written (fst (build_page py_repr BASE ACTIVE_AT region_info)) = [].
Proof.
  unfold build_page.
  apply quiet_bindM; [apply quiet_lift|intros mainValue].
  apply quiet_bindM; [apply quiet_lift|intros subdiv_value].
  apply quiet_bindM; [apply quiet_lift|intros html_top].
  apply quiet_bindM; [apply quiet_lift|intros aps].
  apply quiet_bindM;
    [apply quiet_foldMM; intros; apply quiet_add_problem|intros groups].
  rewrite footer_date_raises. reflexivity.
Qed.

(** C1: when the region is in the payload the run ends in
    [AttributeError] at [footer_date] and has written no HTML file
    (the icons of the groups are saved before); no run writes a file; the
    command line has no influence on the run, the write statement names
    a file next to the script; a payload without the region prints the
    message and writes nothing. *)
Theorem main_region_found_writes_no_page :
  main repr_unused default_args "/srv/bulletin" sample_time sample_payload
  = ([SaveCompass "bulletin/static/images/compass_fr_c068603260.svg" ["N"; "NE"]],
     Raise AttributeError)
  /\ (forall py_repr a BASE ACTIVE_AT data,
        files_written (fst (main py_repr a BASE ACTIVE_AT data)) = [])
  /\ (forall py_repr a a' BASE ACTIVE_AT data,
        main py_repr a BASE ACTIVE_AT data = main py_repr a' BASE ACTIVE_AT data)
  /\ main repr_unused default_args "/srv/bulletin" sample_time
       (VDict [("features", VList [])])
     = ([Print "Region de CH-4211 introuvable."], Ok tt).
Proof.
  split; [vm_compute; reflexivity|]. split; [|split; [reflexivity|reflexivity]].
  intros py_repr a BASE ACTIVE_AT data. unfold main.
  apply quiet_bindM; [apply quiet_lift|intros region_info].
  destruct (negb (truthy region_info)); [reflexivity|].
  apply quiet_build_page.
Qed.

(** ** Equality of keys *)

Lemma scalar_eqb_canon (a b : scalar) :
  scalar_eqb a b = true <-> canon a = canon b.
Proof.
  destruct a as [|x|n|s], b as [|y|m|t]; cbn;
    rewrite ?Z.eqb_eq, ?String.eqb_eq; split; intros H; congruence.
Qed.

Lemma scalars_eqb_canon (l1 l2 : list scalar) :
  scalars_eqb l1 l2 = true <-> map canon l1 = map canon l2.
Proof.
  revert l2. induction l1 as [|a l1 IH]; intros [|b l2]; cbn;
    try (split; congruence).
  rewrite andb_true_iff, scalar_eqb_canon, IH. split.
  - intros [-> ->]. reflexivity.
  - intros H. inversion H. auto.
Qed.

Lemma key_eqb_canon (k1 k2 : group_key) :
  key_eqb k1 k2 = true <-> canon_key k1 = canon_key k2.
Proof.
  destruct k1 as [[[[t1 lo1] hi1] a1] c1], k2 as [[[[t2 lo2] hi2] a2] c2].
  unfold key_eqb, canon_key.
  rewrite !andb_true_iff, !scalar_eqb_canon, scalars_eqb_canon, !String.eqb_eq.
  split.
  - intros [[[[-> ->] ->] ->] ->]. reflexivity.
  - intros H. inversion H. auto.
Qed.

Lemma key_eqb_false_canon (k1 k2 : group_key) :
  key_eqb k1 k2 = false <-> canon_key k1 <> canon_key k2.
Proof.
  rewrite <- key_eqb_canon. destruct (key_eqb k1 k2); split; congruence.
Qed.

(** Equality of group keys, as the dict of groups sees it, is an
    equivalence relation. *)
Lemma key_eqb_equivalence :
  (forall k, key_eqb k k = true)
  /\ (forall k1 k2, key_eqb k1 k2 = key_eqb k2 k1)
  /\ (forall k1 k2 k3,
        key_eqb k1 k2 = true -> key_eqb k2 k3 = true -> key_eqb k1 k3 = true).
Proof.
  split; [|split].
  - intros k. apply key_eqb_canon. reflexivity.
  - intros k1 k2. destruct (key_eqb k1 k2) eqn:E1, (key_eqb k2 k1) eqn:E2;
      try reflexivity.
    + apply key_eqb_canon in E1. apply key_eqb_false_canon in E2. congruence.
    + apply key_eqb_canon in E2. apply key_eqb_false_canon in E1. congruence.
  - intros k1 k2 k3 H1 H2. apply key_eqb_canon.
    apply key_eqb_canon in H1. apply key_eqb_canon in H2. congruence.
Qed.

Lemma key_eqb_refl (k : group_key) : key_eqb k k = true.
Proof. apply key_eqb_canon. reflexivity. Qed.

Lemma key_in_canon (k : group_key) (groups : groups_t) :
  key_in k groups = true
  <-> In (canon_key k) (map (fun kg => canon_key (fst kg)) groups).
Proof.
  unfold key_in. rewrite existsb_exists, in_map_iff. split.
  - intros (kg & Hin & H). exists kg. apply key_eqb_canon in H. auto.
  - intros (kg & H & Hin). exists kg. split; [assumption|].
    apply key_eqb_canon. congruence.
Qed.

Lemma key_in_false_canon (k : group_key) (groups : groups_t) :
  key_in k groups = false
  <-> ~ In (canon_key k) (map (fun kg => canon_key (fst kg)) groups).
Proof.
  rewrite <- key_in_canon. destruct (key_in k groups); split; congruence.
Qed.

Lemma update_group_canon_keys (k : group_key) (f : group -> group)
  (groups : groups_t) :
  map (fun kg => canon_key (fst kg)) (update_group k f groups)
  = map (fun kg => canon_key (fst kg)) groups.
Proof.
  rewrite <- !(map_map fst canon_key), update_group_keys. reflexivity.
Qed.

(** A property of all groups after an update, when the keys are
    pairwise different: the groups with a key equal to [k] have it after
    [f], the others as they are. *)
Lemma update_group_Forall (P : group_key * group -> Prop) (k : group_key)
  (f : group -> group) (groups : groups_t) :
  NoDup (map (fun kg => canon_key (fst kg)) groups) ->
  (forall kg, In kg groups -> key_eqb k (fst kg) = true -> P (fst kg, f (snd kg))) ->
  (forall kg, In kg groups -> key_eqb k (fst kg) = false -> P kg) ->
  Forall P (update_group k f groups).
Proof.
  induction groups as [|[k' g] rest IH]; intros Hnd Hyes Hno;
    cbn [update_group]; [constructor|].
  cbn [map fst] in Hnd. inversion Hnd as [|? ? Hnotin Hnd']; subst.
  destruct (key_eqb k k') eqn:E.
  - constructor.
    + apply (Hyes (k', g)); [left; reflexivity|exact E].
    + apply Forall_forall. intros kg Hin. apply Hno; [right; assumption|].
      apply key_eqb_false_canon. intros Heq. apply Hnotin.
      apply key_eqb_canon in E. rewrite <- E, Heq.
      apply in_map_iff. exists kg. auto.
  - constructor.
    + apply (Hno (k', g)); [left; reflexivity|exact E].
    + apply IH; [assumption| |]; intros kg Hin; [apply Hyes|apply Hno];
        right; assumption.
Qed.

Lemma mapM_snoc {A B : Type} (f : A -> result B) (l : list A) (x : A)
  (ys : list B) (y : B) :
  mapM f l = Ok ys -> f x = Ok y -> mapM f (l ++ [x]) = Ok (ys ++ [y])%list.
Proof.
  revert ys. induction l as [|a l IH]; intros ys Hl Hx; cbn [mapM app] in *.
  - inversion Hl; subst. rewrite Hx. reflexivity.
  - apply bind_ok in Hl as (b & Hb & Hl).
    apply bind_ok in Hl as (bs & Hbs & Hl). inversion Hl; subst.
    rewrite Hb. cbn [bind]. rewrite (IH bs Hbs Hx). reflexivity.
Qed.

Lemma filter_none {A : Type} (f : A -> bool) (l : list A) :
  (forall x, In x l -> f x = false) -> filter f l = [].
Proof.
  induction l as [|x l IH]; intros H; cbn [filter]; [reflexivity|].
  rewrite (H x) by (left; reflexivity). apply IH.
  intros y Hy. apply H. right. assumption.
Qed.

Lemma emit_ok (e : event) (tr : list event) (u : unit) :
  emit e = (tr, Ok u) -> tr = [e].
Proof. unfold emit. intros H. inversion H. reflexivity. Qed.

Section Grouping.

Variable py_repr : value -> string.

(** What a successful pass of the loop body has done, with the entry it
    appended and the icon it saved. *)
Lemma add_problem_inv (groups : groups_t) (ap : value) (tr : list event)
  (groups' : groups_t) :
  add_problem py_repr groups ap = (tr, Ok groups') ->
  exists k e,
    record_key ap = Ok k
    /\ record_entry ap = Ok e
    /\ ((key_in k groups = true /\ tr = []
         /\ groups' = update_group k (append_entry (fst e) (snd e) ap) groups)
        \/ (key_in k groups = false
            /\ exists g,
                 problem_entries g = [] /\ raw g = []
                 /\ (exists ev, tr = [ev] /\ saves_icon_of ev (k, g))
                 /\ groups' = update_group k (append_entry (fst e) (snd e) ap)
                                (push groups (k, g)))).
Proof.
  unfold add_problem. intros H.
  apply bindM_ok in H as (t1 & elev & t2 & H1 & H & ->).
  apply lift_ok in H1 as [Helev ->].
  apply bindM_ok in H as (t1 & aspects & t3 & H1 & H & ->).
  apply lift_ok in H1 as [Hasp ->].
  apply bindM_ok in H as (t1 & k & t4 & H1 & H & ->).
  apply lift_ok in H1 as [Hk ->].
  apply bindM_ok in H as (t1 & groups1 & t5 & Hg & H & ->).
  apply bindM_ok in H as (t6 & pt & t7 & H1 & H & ->).
  apply lift_ok in H1 as [Hpt ->].
  apply bindM_ok in H as (t8 & [pt' german] & t9 & H1 & H & ->).
  apply lift_ok in H1 as [Hlab ->].
  apply retM_ok in H as [<- ->].
  exists k, (pt', german).
  split. { unfold record_key. rewrite Helev, Hasp. exact Hk. }
  split. { unfold record_entry. rewrite Hpt. exact Hlab. }
  cbn [app fst snd]. rewrite !app_nil_r.
  destruct (key_in k groups) eqn:Ein; cbn [negb] in Hg.
  - left. apply retM_ok in Hg as [<- ->]. auto.
  - right. split; [reflexivity|].
    apply bindM_ok in Hg as (t10 & g & t11 & Hnew & Hg & ->).
    apply retM_ok in Hg as [<- ->]. rewrite app_nil_r.
    exists g.
    unfold new_group in Hnew.
    apply bindM_ok in Hnew as (u1 & [et icon] & u2 & H1 & Hnew & ->).
    apply lift_ok in H1 as [Hed ->].
    apply bindM_ok in Hnew as (u3 & [xt fr] & u4 & H1 & Hnew & ->).
    apply lift_ok in H1 as [Hxd ->].
    apply bindM_ok in Hnew as (u5 & [] & u6 & Hev & Hnew & ->).
    apply emit_ok in Hev as ->.
    apply bindM_ok in Hnew as (u7 & c & u8 & H1 & Hnew & ->).
    apply lift_ok in H1 as [_ ->].
    apply retM_ok in Hnew as [<- ->].
    repeat split; try reflexivity.
    eexists. split; [reflexivity|]. exists fr. split; reflexivity.
Qed.

(** The loop body keeps the groups in step with the records. *)
Lemma add_problem_grouped (seen : list value) (groups : groups_t) (ap : value)
  (tr : list event) (groups' : groups_t) :
  grouped seen groups ->
  add_problem py_repr groups ap = (tr, Ok groups') ->
  grouped (seen ++ [ap]) groups'.
Proof.
  intros (Hnd & Hgroups & Hseen) Hadd.
  destruct (add_problem_inv _ _ _ _ Hadd) as (k & e & Hk & He & Hcase).
  assert (Hhas : forall k', has_key k' ap = key_eqb k k').
  { intros k'. unfold has_key. rewrite Hk. reflexivity. }
  (* the property of one group, before and after the record *)
  set (P := fun (aps : list value) (kg : group_key * group) =>
              raw (snd kg) = filter (has_key (fst kg)) aps
              /\ mapM record_entry (raw (snd kg)) = Ok (problem_entries (snd kg))
              /\ raw (snd kg) <> []).
  assert (Hyes : forall kg, key_eqb k (fst kg) = true ->
                   (raw (snd kg) = filter (has_key (fst kg)) seen
                    /\ mapM record_entry (raw (snd kg))
                       = Ok (problem_entries (snd kg))) ->
                   P (seen ++ [ap])%list
                     (fst kg, append_entry (fst e) (snd e) ap (snd kg))).
  { intros [k' g] Hm [Hraw Hent]. unfold P. cbn [fst snd append_entry raw
      problem_entries] in *. unfold push. split; [|split].
    - rewrite filter_app, Hraw. cbn [filter]. rewrite Hhas, Hm. reflexivity.
    - destruct e as [pt german]. apply mapM_snoc; assumption.
    - destruct (raw g); discriminate. }
  assert (Hno : forall kg, key_eqb k (fst kg) = false ->
                  P seen kg -> P (seen ++ [ap])%list kg).
  { intros [k' g] Hm (Hraw & Hent & Hne). unfold P. cbn [fst snd] in *.
    split; [|split]; try assumption.
    rewrite filter_app, Hraw. cbn [filter]. rewrite Hhas, Hm.
    rewrite app_nil_r. reflexivity. }
  rewrite Forall_forall in Hgroups.
  destruct Hcase as [(Hin & _ & ->)|(Hin & g & Hpe & Hraw & _ & ->)].
  - split; [|split].
    + rewrite update_group_canon_keys. exact Hnd.
    + apply update_group_Forall; [exact Hnd| |].
      * intros kg Hkg Hm. apply (Hyes kg Hm).
        destruct (Hgroups kg Hkg) as (H1 & H2 & _). auto.
      * intros kg Hkg Hm. apply (Hno kg Hm). apply (Hgroups kg Hkg).
    + apply Forall_app. split.
      * eapply Forall_impl; [|exact Hseen].
        intros ap' (k' & Hk' & Hin'). exists k'. split; [assumption|].
        rewrite key_in_keys, update_group_keys, <- key_in_keys. assumption.
      * constructor; [|constructor]. exists k. split; [assumption|].
        rewrite key_in_keys, update_group_keys, <- key_in_keys. assumption.
  - assert (Hnd' : NoDup (map (fun kg => canon_key (fst kg))
                              (push groups (k, g)))).
    { unfold push. rewrite map_app. cbn [map fst].
      apply NoDup_app; [exact Hnd|constructor; [intros []|constructor]|].
      intros x Hx [<-|[]]. apply key_in_false_canon in Hin. contradiction. }
    assert (Hnone : filter (has_key k) seen = []).
    { apply filter_none.
      intros ap' Hap'. rewrite Forall_forall in Hseen.
      destruct (Hseen ap' Hap') as (k' & Hk' & Hin').
      unfold has_key. rewrite Hk'.
      destruct (key_eqb k' k) eqn:E; [|reflexivity].
      apply key_eqb_canon in E. apply key_in_canon in Hin'.
      apply key_in_false_canon in Hin. rewrite E in Hin'. contradiction. }
    split; [|split].
    + rewrite update_group_canon_keys. exact Hnd'.
    + apply update_group_Forall; [exact Hnd'| |].
      * intros kg Hkg Hm. apply (Hyes kg Hm).
        unfold push in Hkg. apply in_app_or in Hkg as [Hkg|[<-|[]]].
        -- destruct (Hgroups kg Hkg) as (H1 & H2 & _). auto.
        -- cbn [fst snd]. rewrite Hraw, Hpe, Hnone. auto.
      * intros kg Hkg Hm. apply (Hno kg Hm).
        unfold push in Hkg. apply in_app_or in Hkg as [Hkg|[<-|[]]].
        -- apply (Hgroups kg Hkg).
        -- cbn [fst] in Hm. rewrite key_eqb_refl in Hm. discriminate.
    + assert (Hmono : forall k', key_in k' groups = true ->
                key_in k' (update_group k (append_entry (fst e) (snd e) ap)
                             (push groups (k, g))) = true).
      { intros k' H'. rewrite key_in_keys, update_group_keys. unfold push.
        rewrite map_app, existsb_app, <- key_in_keys, H'. reflexivity. }
      apply Forall_app. split.
      * eapply Forall_impl; [|exact Hseen].
        intros ap' (k' & Hk' & Hin'). exists k'. auto.
      * constructor; [|constructor]. exists k. split; [assumption|].
        rewrite key_in_keys, update_group_keys. unfold push.
        rewrite map_app, existsb_app. cbn [map fst existsb].
        rewrite key_eqb_refl, orb_true_r. reflexivity.
Qed.

Lemma foldMM_grouped (aps : list value) :
  forall (seen : list value) (groups : groups_t) (tr : list event)
         (gs : groups_t),
    grouped seen groups ->
    foldMM (add_problem py_repr) aps groups = (tr, Ok gs) ->
    grouped (seen ++ aps) gs.
Proof.
  induction aps as [|ap aps IH]; intros seen groups tr gs Hinv H.
  - apply retM_ok in H as [<- _]. rewrite app_nil_r. assumption.
  - cbn [foldMM] in H.
    apply bindM_ok in H as (t1 & groups' & t2 & Hadd & Hrest & ->).
    replace (seen ++ ap :: aps)%list with ((seen ++ [ap]) ++ aps)%list
      by (rewrite <- app_assoc; reflexivity).
    apply (IH _ groups' t2 gs); [|assumption].
    apply (add_problem_grouped seen groups ap t1 groups' Hinv Hadd).
Qed.

End Grouping.

(** ** What the grouping loop computes *)

Lemma build_groups_grouped (py_repr : value -> string) (aps : list value)
  (tr : list event) (gs : groups_t) :
  build_groups py_repr aps = (tr, Ok gs) -> grouped aps gs.
Proof.
  intros H. apply (foldMM_grouped py_repr aps [] [] tr gs); [|exact H].
  split; [constructor|split; constructor].
Qed.

(** X1: after the loop every group holds exactly the records that have
    its key, in the order of the input, and its entries are the entries
    of these records, one for each. *)
Theorem build_groups_members (py_repr : value -> string) (aps : list value)
  (tr : list event) (gs : groups_t) :
  build_groups py_repr aps = (tr, Ok gs) ->
  Forall (fun kg =>
            raw (snd kg) = filter (has_key (fst kg)) aps
            /\ mapM record_entry (raw (snd kg)) = Ok (problem_entries (snd kg)))
         gs.
Proof.
  intros H. destruct (build_groups_grouped py_repr aps tr gs H) as (_ & Hg & _).
  eapply Forall_impl; [|exact Hg]. intros kg (H1 & H2 & _). auto.
Qed.

Lemma build_groups_members_witness :
  exists tr gs,
    build_groups repr_unused [sample_problem; sample_problem] = (tr, Ok gs)
    /\ Forall (fun kg =>
                 raw (snd kg)
                 = filter (has_key (fst kg)) [sample_problem; sample_problem]
                 /\ mapM record_entry (raw (snd kg))
                    = Ok (problem_entries (snd kg)))
              gs.
Proof.
  destruct (build_groups repr_unused [sample_problem; sample_problem])
    as [tr [gs|e]] eqn:E.
  - exists tr, gs. split; [reflexivity|].
    apply (build_groups_members repr_unused _ tr gs E).
  - vm_compute in E. discriminate E.
Defined.

Lemma NoDup_two_apart {A : Type} (l1 l2 l3 : list A) (a b : A) :
  NoDup (l1 ++ a :: l2 ++ b :: l3) -> a <> b.
Proof.
  intros H Hab. apply NoDup_remove_2 in H. apply H.
  apply in_or_app. right. apply in_or_app. right. left. auto.
Qed.

(** X2: no two groups have equal keys, and every record has the key of
    a group: the groups partition the records by key. *)
Theorem build_groups_partition (py_repr : value -> string) (aps : list value)
  (tr : list event) (gs : groups_t) :
  build_groups py_repr aps = (tr, Ok gs) ->
  (forall gs1 kg1 gs2 kg2 gs3,
      gs = (gs1 ++ kg1 :: gs2 ++ kg2 :: gs3)%list ->
      key_eqb (fst kg1) (fst kg2) = false)
  /\ Forall (fun ap => exists k, record_key ap = Ok k /\ key_in k gs = true) aps.
Proof.
  intros H. destruct (build_groups_grouped py_repr aps tr gs H) as (Hnd & _ & Hs).
  split; [|exact Hs].
  intros gs1 kg1 gs2 kg2 gs3 ->. apply key_eqb_false_canon.
  rewrite map_app in Hnd. cbn [map] in Hnd. rewrite map_app in Hnd.
  cbn [map] in Hnd. apply (NoDup_two_apart _ _ _ _ _ Hnd).
Qed.

Lemma build_groups_partition_witness :
  exists tr kg1 kg2,
    build_groups repr_unused
      [VDict [("problemType", VStr "no_distinct_avalanche_problem");
              ("comment", VStr "a")];
       sample_problem;
       VDict [("problemType", VStr "no_distinct_avalanche_problem");
              ("comment", VStr " a ")];
       sample_problem]
    = (tr, Ok [kg1; kg2])
    /\ key_eqb (fst kg1) (fst kg2) = false.
Proof.
  destruct (build_groups repr_unused
      [VDict [("problemType", VStr "no_distinct_avalanche_problem");
              ("comment", VStr "a")];
       sample_problem;
       VDict [("problemType", VStr "no_distinct_avalanche_problem");
              ("comment", VStr " a ")];
       sample_problem]) as [tr [gs|e]] eqn:E.
  - destruct (build_groups_partition repr_unused _ tr gs E) as [Hd _].
    assert (Hgs : exists kg1 kg2, gs = [kg1; kg2]).
    { vm_compute in E. injection E as _ <-. eexists. eexists. reflexivity. }
    destruct Hgs as (kg1 & kg2 & ->).
    exists tr, kg1, kg2. split; [reflexivity|].
    apply (Hd [] kg1 [] kg2 []). reflexivity.
  - vm_compute in E. discriminate E.
Defined.

Lemma list_sum_step (x : nat) (l : list nat) :
  list_sum (x :: l) = (x + list_sum l)%nat.
Proof. reflexivity. Qed.

Lemma list_sum_map_add {A : Type} (f g : A -> nat) (l : list A) :
  list_sum (map (fun x => f x + g x)%nat l)
  = (list_sum (map f l) + list_sum (map g l))%nat.
Proof.
  induction l as [|x l IH]; cbn [map]; [reflexivity|].
  rewrite !list_sum_step, IH. lia.
Qed.

Lemma no_group_for_key (k : group_key) (groups : groups_t) :
  ~ In (canon_key k) (map (fun kg => canon_key (fst kg)) groups) ->
  list_sum (map (fun kg => if key_eqb k (fst kg) then 1 else 0)%nat groups)
  = 0%nat.
Proof.
  induction groups as [|[k' g] rest IH]; intros Hnotin; [reflexivity|].
  cbn [map fst] in *. rewrite list_sum_step.
  destruct (key_eqb k k') eqn:E.
  - exfalso. apply Hnotin. left. apply key_eqb_canon in E. congruence.
  - apply IH. intros Hin. apply Hnotin. right. assumption.
Qed.

(** Among groups with pairwise different keys exactly one has the key of
    a record that has the key of a group. *)
Lemma one_group_per_key (k : group_key) (groups : groups_t) :
  NoDup (map (fun kg => canon_key (fst kg)) groups) ->
  key_in k groups = true ->
  list_sum (map (fun kg => if key_eqb k (fst kg) then 1 else 0)%nat groups)
  = 1%nat.
Proof.
  induction groups as [|[k' g] rest IH]; intros Hnd Hin; [discriminate Hin|].
  cbn [map fst] in Hnd. inversion Hnd as [|? ? Hnotin Hnd']; subst.
  cbn [map fst]. rewrite list_sum_step.
  unfold key_in in Hin. cbn [existsb fst] in Hin.
  destruct (key_eqb k k') eqn:E.
  - rewrite no_group_for_key; [reflexivity|].
    apply key_eqb_canon in E. cbn [fst] in Hnotin. rewrite E. exact Hnotin.
  - cbn [orb] in Hin. rewrite (IH Hnd' Hin). reflexivity.
Qed.

Lemma grouped_total (aps : list value) (groups : groups_t) :
  NoDup (map (fun kg => canon_key (fst kg)) groups) ->
  Forall (fun ap => exists k, record_key ap = Ok k /\ key_in k groups = true)
         aps ->
  list_sum (map (fun kg => List.length (filter (has_key (fst kg)) aps)) groups)
  = List.length aps.
Proof.
  intros Hnd. induction 1 as [|ap aps (k & Hk & Hin) _ IH].
  - cbn [filter List.length]. induction groups as [|kg rest IHg]; [reflexivity|].
    cbn [map]. rewrite list_sum_step. inversion Hnd; subst.
    apply IHg. assumption.
  - cbn [List.length]. rewrite <- IH.
    change (S ?n) with (1 + n)%nat.
    rewrite <- (one_group_per_key k groups Hnd Hin) at 1.
    rewrite <- list_sum_map_add. f_equal. apply map_ext. intros kg.
    cbn [filter]. unfold has_key at 1. rewrite Hk.
    rewrite (proj1 (proj2 key_eqb_equivalence) k (fst kg)).
    destruct (key_eqb (fst kg) k); reflexivity.
Qed.

(** X3: no group is empty, and the groups hold as many records as the
    input has: no record is dropped and none is counted twice. *)
Theorem build_groups_conserves (py_repr : value -> string) (aps : list value)
  (tr : list event) (gs : groups_t) :
  build_groups py_repr aps = (tr, Ok gs) ->
  Forall (fun kg => raw (snd kg) <> [] /\ problem_entries (snd kg) <> []) gs
  /\ total_records gs = List.length aps.
Proof.
  intros H. destruct (build_groups_grouped py_repr aps tr gs H) as (Hnd & Hg & Hs).
  split.
  - eapply Forall_impl; [|exact Hg]. intros kg (_ & Hent & Hne).
    split; [exact Hne|]. intros Hnil. rewrite Hnil in Hent.
    destruct (raw (snd kg)) as [|ap l]; [congruence|].
    cbn [mapM] in Hent. apply bind_ok in Hent as (y & _ & Hent).
    apply bind_ok in Hent as (ys & _ & Hent). discriminate Hent.
  - rewrite <- (grouped_total aps gs Hnd Hs). unfold total_records.
    f_equal. apply map_ext_in. intros kg Hkg.
    rewrite Forall_forall in Hg. destruct (Hg kg Hkg) as (-> & _). reflexivity.
Qed.

Lemma build_groups_conserves_witness :
  exists tr gs,
    build_groups repr_unused [sample_problem; sample_problem] = (tr, Ok gs)
    /\ total_records gs = 2%nat.
Proof.
  destruct (build_groups repr_unused [sample_problem; sample_problem])
    as [tr [gs|e]] eqn:E.
  - exists tr, gs. split; [reflexivity|].
    apply (proj2 (build_groups_conserves repr_unused _ tr gs E)).
  - vm_compute in E. discriminate E.
Defined.

Lemma update_group_saves (tr : list event) (k : group_key) (pt german : scalar)
  (ap : value) (groups : groups_t) :
  Forall2 saves_icon_of tr groups ->
  Forall2 saves_icon_of tr (update_group k (append_entry pt german ap) groups).
Proof.
  induction 1 as [|ev [k' g] tr rest Hhead Hrest IH]; cbn [update_group];
    [constructor|].
  destruct (key_eqb k k'); constructor;
    [exact Hhead|exact Hrest|exact Hhead|exact IH].
Qed.

Lemma foldMM_saves (py_repr : value -> string) (aps : list value) :
  forall (tr0 : list event) (groups : groups_t) (tr : list event)
         (gs : groups_t),
    Forall2 saves_icon_of tr0 groups ->
    foldMM (add_problem py_repr) aps groups = (tr, Ok gs) ->
    Forall2 saves_icon_of (tr0 ++ tr) gs.
Proof.
  induction aps as [|ap aps IH]; intros tr0 groups tr gs Hinv H.
  - apply retM_ok in H as [<- ->]. rewrite app_nil_r. assumption.
  - cbn [foldMM] in H.
    apply bindM_ok in H as (t1 & groups' & t2 & Hadd & Hrest & ->).
    rewrite app_assoc. apply (IH _ groups' t2 gs); [|assumption].
    destruct (add_problem_inv _ _ _ _ _ Hadd) as (k & e & _ & _ & Hcase).
    destruct Hcase as [(_ & -> & ->)|(_ & g & _ & _ & (ev & -> & Hev) & ->)].
    + rewrite app_nil_r. apply update_group_saves. assumption.
    + apply update_group_saves. unfold push. apply Forall2_app; [assumption|].
      constructor; [exact Hev|constructor].
Qed.

(** X4: the loop saves one compass icon for every group, in the order of
    the groups and under the file name the group refers to; a record
    that joins an existing group saves nothing, and nothing else is
    written or printed. *)
Theorem build_groups_saves_one_icon_per_group (py_repr : value -> string)
  (aps : list value) (tr : list event) (gs : groups_t) :
  build_groups py_repr aps = (tr, Ok gs) ->
  Forall2 saves_icon_of tr gs.
Proof.
  intros H. apply (foldMM_saves py_repr aps [] [] tr gs); [constructor|exact H].
Qed.

Lemma build_groups_saves_one_icon_per_group_witness :
  exists tr gs,
    build_groups repr_unused [sample_problem; sample_problem] = (tr, Ok gs)
    /\ Forall2 saves_icon_of tr gs /\ List.length tr = 1%nat.
Proof.
  destruct (build_groups repr_unused [sample_problem; sample_problem])
    as [tr [gs|e]] eqn:E.
  - exists tr, gs. split; [reflexivity|]. split.
    + apply (build_groups_saves_one_icon_per_group repr_unused _ tr gs E).
    + vm_compute in E. injection E as <- _. reflexivity.
  - vm_compute in E. discriminate E.
Defined.

Lemma record_entry_type (ap : value) (e : scalar * scalar) :
  record_entry ap = Ok e -> py_get ap "problemType" VNone = Ok (Sc (fst e)).
Proof.
  unfold record_entry, snow_label. intros H.
  apply bind_ok in H as (pt & Hpt & H).
  apply bind_ok in H as (german & _ & H).
  apply bind_ok in H as (a & Ha & H). inversion H; subst. cbn [fst].
  destruct pt as [a'| |]; cbn [hashable] in Ha; try discriminate.
  inversion Ha; subst. exact Hpt.
Qed.

Lemma entries_other_iff (aps : list value) :
  forall es,
    mapM record_entry aps = Ok es ->
    (is_pure_other es = true
     <-> Forall (fun ap => py_get ap "problemType" VNone
                           = Ok (VStr "no_distinct_avalanche_problem")) aps).
Proof.
  induction aps as [|ap aps IH]; intros es H; cbn [mapM] in H.
  - inversion H; subst. split; [constructor|reflexivity].
  - apply bind_ok in H as (e & He & H).
    apply bind_ok in H as (es' & Hes & H). inversion H; subst.
    unfold is_pure_other. cbn [forallb]. fold (is_pure_other es').
    rewrite andb_true_iff, (IH es' Hes), scalar_eqb_str.
    apply record_entry_type in He. split.
    + intros [Hty Hrest]. constructor; [|assumption]. rewrite He, Hty. reflexivity.
    + intros Hall. inversion Hall as [|? ? Hty Hrest]; subst.
      split; [|assumption]. rewrite He in Hty. inversion Hty. reflexivity.
Qed.

(** X5: a group is rendered among the "other" groups exactly when every
    record merged into it has the problem type
    [no_distinct_avalanche_problem]; since no group is empty, an "other"
    group holds at least one such record. *)
Theorem other_group_iff_all_records (py_repr : value -> string)
  (aps : list value) (tr : list event) (gs : groups_t) :
  build_groups py_repr aps = (tr, Ok gs) ->
  Forall (fun kg =>
            raw (snd kg) <> []
            /\ (is_other (snd kg) = true
                <-> Forall (fun ap => py_get ap "problemType" VNone
                                      = Ok (VStr "no_distinct_avalanche_problem"))
                           (raw (snd kg))))
         gs.
Proof.
  intros H. destruct (build_groups_grouped py_repr aps tr gs H) as (_ & Hg & _).
  eapply Forall_impl; [|exact Hg]. intros kg (_ & Hent & Hne).
  split; [exact Hne|]. apply entries_other_iff. exact Hent.
Qed.

Lemma other_group_iff_all_records_witness :
  exists tr gs,
    build_groups repr_unused
      [VDict [("problemType", VStr "no_distinct_avalanche_problem")];
       sample_problem]
    = (tr, Ok gs)
    /\ map (fun kg => is_other (snd kg)) gs = [true; false]
    /\ Forall (fun kg =>
                 raw (snd kg) <> []
                 /\ (is_other (snd kg) = true
                     <-> Forall (fun ap =>
                                   py_get ap "problemType" VNone
                                   = Ok (VStr "no_distinct_avalanche_problem"))
                                (raw (snd kg))))
              gs.
Proof.
  destruct (build_groups repr_unused
              [VDict [("problemType", VStr "no_distinct_avalanche_problem")];
               sample_problem]) as [tr [gs|e]] eqn:E.
  - exists tr, gs. split; [reflexivity|]. split.
    + vm_compute in E. injection E as _ <-. reflexivity.
    + apply (other_group_iff_all_records repr_unused _ tr gs E).
  - vm_compute in E. discriminate E.
Defined.

(** ** Edge cases of the danger level *)

(** X6: without ratings (the key is missing or the list is empty)
    [highest_warning] raises [UnboundLocalError] and [warning_subdivision]
    raises [IndexError]; the page builder calls [highest_warning] first,
    so the run ends in [UnboundLocalError] before anything is saved. *)
Theorem no_ratings_unbound_local (d : list (string * value)) :
  lookup "dangerRatings" d = None \/ lookup "dangerRatings" d = Some (VList []) ->
  highest_warning (VDict d) = Raise UnboundLocalError
  /\ warning_subdivision (VDict d) = Raise IndexError
  /\ forall py_repr BASE ACTIVE_AT,
       build_page py_repr BASE ACTIVE_AT (VDict d) = ([], Raise UnboundLocalError).
Proof.
  intros H.
  assert (H1 : highest_warning (VDict d) = Raise UnboundLocalError).
  { unfold highest_warning. cbn [py_get]. destruct H as [-> | ->]; reflexivity. }
  split; [exact H1|]. split.
  - unfold warning_subdivision. cbn [py_get]. destruct H as [-> | ->]; reflexivity.
  - intros py_repr BASE ACTIVE_AT. unfold build_page. rewrite H1. reflexivity.
Qed.

Lemma no_ratings_unbound_local_witness :
  highest_warning (VDict [("regions", VList []); ("dangerRatings", VList [])])
  = Raise UnboundLocalError.
Proof.
  apply (no_ratings_unbound_local
           [("regions", VList []); ("dangerRatings", VList [])]).
  right. reflexivity.
Defined.






Lemma foldM_app {A S : Type} (f : S -> A -> result S) (l1 l2 : list A) (s : S) :
  foldM f (l1 ++ l2) s = (s' <- foldM f l1 s ;; foldM f l2 s').
Proof.
  revert s. induction l1 as [|x l1 IH]; intros s; cbn [foldM app bind].
  - reflexivity.
  - destruct (f s x) as [s1|e]; cbn [bind]; [apply IH|reflexivity].
Qed.

(** X8: a rating whose label is not in the severity table, or that has
    no [mainValue], makes [highest_warning] raise [TypeError] when the
    ratings before it are in the table: the label passes through the
    table unchanged and is then compared with a number. *)
Theorem highest_warning_unknown_label (d : list (string * value))
  (before : list value) (ranks : list Z) (rd : list (string * value))
  (after : list value) :
  lookup "dangerRatings" d = Some (VList (before ++ VDict rd :: after)) ->
  Forall2 rating_of_rank before ranks ->
  (bound rd "mainValue" = VNone
   \/ exists label, bound rd "mainValue" = VStr label
                    /\ lookup label warning_numbers = None) ->
  highest_warning (VDict d) = Raise TypeError.
Proof.
  intros Hd Hbefore Hbad. unfold highest_warning. cbn [py_get]. rewrite Hd.
  cbn [bind py_iter]. rewrite foldM_app.
  assert (Hst : exists st o,
             foldM highest_warning_body before None = Ok st
             /\ (st = None /\ o = 0 \/ st = Some (SInt o))).
  { destruct Hbefore as [|dr n drs rks Hdr Hrest].
    - exists None, 0. auto.
    - cbn [foldM]. rewrite (highest_warning_body_rank None 0 n dr) by auto.
      cbn [bind]. rewrite (highest_warning_loop drs rks Hrest _ _ eq_refl).
      eexists. eexists. split; [reflexivity|]. right. reflexivity. }
  destruct Hst as (st & o & -> & Hst). cbn [bind foldM].
  assert (Hbody : highest_warning_body st (VDict rd) = Raise TypeError).
  { unfold highest_warning_body.
    assert (Hold : match st with
                   | Some mv => if is_none mv then Ok (SInt 0)
                                else table_get_self warning_numbers mv
                   | None => Ok (SInt 0)
                   end = Ok (SInt o)).
    { destruct Hst as [[-> ->]| ->]; reflexivity. }
    rewrite Hold. cbn [bind py_get]. fold (bound rd "mainValue").
    destruct Hbad as [->|(label & -> & Hmiss)].
    - reflexivity.
    - unfold table_get_self. cbn [hashable bind]. rewrite Hmiss. reflexivity. }
  rewrite Hbody. reflexivity.
Qed.

Lemma highest_warning_unknown_label_witness :
  highest_warning
    (VDict [("dangerRatings",
             VList [VDict [("mainValue", VStr "high")];
                    VDict [("mainValue", VStr "extreme")];
                    VDict [("mainValue", VStr "low")]])])
  = Raise TypeError.
Proof.
  apply (highest_warning_unknown_label
           [("dangerRatings",
             VList [VDict [("mainValue", VStr "high")];
                    VDict [("mainValue", VStr "extreme")];
                    VDict [("mainValue", VStr "low")]])]
           [VDict [("mainValue", VStr "high")]] [4]
           [("mainValue", VStr "extreme")]
           [VDict [("mainValue", VStr "low")]]).
  - reflexivity.
  - constructor; [|constructor].
    exists [("mainValue", VStr "high")], "high". repeat split; reflexivity.
  - right. exists "extreme". split; reflexivity.
Defined.

(** ** Comments *)









(** ** Failures of the key functions *)

(** X10: [_elev_key] raises [AttributeError] exactly on a truthy value
    that is not a dict and returns a key on every other value (a falsy
    one or a dict); [_comment_key] raises [AttributeError] exactly on a
    truthy value that is not a string and returns a key on every other
    value (a falsy one or a string). *)
Theorem key_functions_fail_on_wrong_type :
  (forall elev,
      (_elev_key elev = Raise AttributeError
       <-> truthy elev = true /\ forall d, elev <> VDict d)
      /\ ((exists k, _elev_key elev = Ok k)
          <-> truthy elev = false \/ exists d, elev = VDict d))
  /\ (forall c,
        (_comment_key c = Raise AttributeError
         <-> truthy c = true /\ forall s, c <> VStr s)
        /\ ((exists k, _comment_key c = Ok k)
            <-> truthy c = false \/ exists s, c = VStr s)).
Proof.
  split.
  - intros elev. unfold _elev_key.
    destruct elev as [a|l|d]; destruct (truthy _) eqn:E; cbn [negb];
      (split; split;
       [ try discriminate;
         try (intros _; split; [reflexivity|intros d'; discriminate])
       | try (intros [H _]; discriminate H);
         try (intros [_ H]; exfalso; eapply H; reflexivity);
         try reflexivity
       | try (intros [k H]; discriminate H);
         try (intros _; left; reflexivity);
         try (intros _; right; eexists; reflexivity)
       | try (intros _; eexists; reflexivity);
         try (intros [H|[d' H]]; discriminate H) ]).
  - intros c. unfold _comment_key.
    destruct c as [[| | |s]|l|d]; destruct (truthy _) eqn:E;
      (split; split;
       [ try discriminate;
         try (intros _; split; [reflexivity|intros s'; discriminate])
       | try (intros [H _]; discriminate H);
         try (intros [_ H]; exfalso; eapply H; reflexivity);
         try reflexivity
       | try (intros [k H]; discriminate H);
         try (intros _; left; reflexivity);
         try (intros _; right; eexists; reflexivity)
       | try (intros _; eexists; reflexivity);
         try (intros [H|[s' H]]; discriminate H) ]).
Qed.

Lemma key_functions_fail_on_wrong_type_witness :
  _elev_key (VList [VStr "2000"]) = Raise AttributeError
  /\ _comment_key (Sc (SInt 7)) = Raise AttributeError.
Proof.
  split.
  - apply (proj2 (proj1 (proj1 key_functions_fail_on_wrong_type
                           (VList [VStr "2000"])))).
    split; [reflexivity|intros d; discriminate].
  - apply (proj2 (proj1 (proj2 key_functions_fail_on_wrong_type
                           (Sc (SInt 7))))).
    split; [reflexivity|intros s; discriminate].
Defined.

(** ** Aspects *)

Lemma elems_eq_strs_iff (l : list value) (c : list string) :
  elems_eq_strs l c = true <-> l = map (fun s => VStr s) c.
Proof.
  revert c. induction l as [|x l IH]; intros [|t c]; cbn [elems_eq_strs map];
    try (split; congruence).
  - destruct x as [[| | |s]| |]; split; congruence.
  - destruct x as [[| | |s]| |]; try (split; congruence).
    rewrite andb_true_iff, String.eqb_eq, IH. split.
    + intros [-> ->]. reflexivity.
    + intros H. inversion H. auto.
Qed.

Lemma chars_single (s : string) : map (fun c => VStr c) (chars s) <> [VStr "all"].
Proof.
  destruct s as [|c [|c' s]]; cbn; congruence.
Qed.

(** X11: [_aspects_key] returns the sentinel [('all',)] exactly for
    [None], the empty list, the French list N, NE, E, SE, S, SO, O, NO,
    and for the two inputs whose tuple is the sentinel itself: the list
    [['all']] and a dict with the single key [all]. *)
Theorem aspects_key_sentinel_iff (aspects : value) :
  _aspects_key aspects = Ok [VStr "all"]
  <-> aspects = VNone
      \/ aspects = VList []
      \/ aspects = VList (map (fun s => VStr s) ORDER)
      \/ aspects = VList [VStr "all"]
      \/ exists x, aspects = VDict [("all", x)].
Proof.
  unfold _aspects_key, in_none_empty_or. split.
  - destruct aspects as [[| | |s]|l|d]; cbn [is_none eq_str_list orb py_iter].
    + auto.
    + discriminate.
    + discriminate.
    + intros H. inversion H as [H']. destruct (chars_single s H').
    + destruct (elems_eq_strs l []) eqn:E1.
      { apply elems_eq_strs_iff in E1. subst. auto. }
      destruct (elems_eq_strs l ["N"; "NE"; "E"; "SE"; "S"; "SO"; "O"; "NO"])
        eqn:E2.
      { apply elems_eq_strs_iff in E2. subst. auto. }
      cbn [orb]. intros H. injection H as ->.
      right. right. right. left. reflexivity.
    + intros H. inversion H as [H']. destruct d as [|[k x] [|kv d]]; try discriminate.
      cbn in H'. inversion H'. right. right. right. right. exists x. reflexivity.
  - intros [->|[->|[->|[->|(x & ->)]]]]; reflexivity.
Qed.

Lemma translate_aspect_french (s : string) :
  translate_aspect (VStr s) = Ok (SStr (french s)).
Proof.
  unfold translate_aspect, table_get, french, lookup, aspects_dict.
  cbn [hashable bind assoc].
  repeat match goal with
         | |- context [if (s =? ?c)%string then _ else _] =>
             destruct (s =? c)%string
         end;
    reflexivity.
Qed.

Lemma mapM_translate_strs (l : list string) :
  mapM translate_aspect (map (fun s => VStr s) l) = Ok (map SStr (map french l)).
Proof.
  induction l as [|s l IH]; [reflexivity|].
  cbn [map mapM]. rewrite translate_aspect_french, IH. reflexivity.
Qed.

Lemma all_strs_strs (l : list string) : all_strs (map SStr l) = Ok l.
Proof.
  unfold all_strs. induction l as [|s l IH]; [reflexivity|].
  cbn [map mapM bind]. rewrite IH. reflexivity.
Qed.

(** X12: on a list of strings, [expo_display] gives "toutes les
    expositions" and the eight French directions for the empty list and
    for the full list N, NE, E, SE, S, SW, W, NW; for every other list
    it gives the aspects translated one by one (SW to SO, W to O, NW to
    NO, unknown names unchanged), in the order of the input, joined by
    ", ". *)
Theorem expo_display_translates (l : list string) :
  expo_display (VList (map (fun s => VStr s) l))
  = if list_eq_dec string_dec l []
    then Ok ("toutes les expositions", ORDER)
    else if list_eq_dec string_dec l ["N"; "NE"; "E"; "SE"; "S"; "SW"; "W"; "NW"]
    then Ok ("toutes les expositions", ORDER)
    else Ok (String.concat ", " (map french l), map french l).
Proof.
  unfold expo_display, in_none_empty_or.
  cbn [is_none eq_str_list orb].
  destruct (list_eq_dec string_dec l []) as [->|Hne]; [reflexivity|].
  assert (E1 : elems_eq_strs (map (fun s => VStr s) l) [] = false).
  { destruct l; [congruence|reflexivity]. }
  rewrite E1.
  destruct (list_eq_dec string_dec l
              ["N"; "NE"; "E"; "SE"; "S"; "SW"; "W"; "NW"]) as [->|Hnf];
    [reflexivity|].
  destruct (elems_eq_strs (map (fun s => VStr s) l)
              ["N"; "NE"; "E"; "SE"; "S"; "SW"; "W"; "NW"]) eqn:E2.
  - exfalso. apply Hnf. apply elems_eq_strs_iff in E2.
    revert E2. generalize ["N"; "NE"; "E"; "SE"; "S"; "SW"; "W"; "NW"].
    clear. induction l as [|s l IH]; intros [|t c] H; cbn [map] in H;
      try discriminate; [reflexivity|].
    inversion H. f_equal. apply IH. assumption.
  - cbn [orb py_iter bind]. rewrite mapM_translate_strs. cbn [bind].
    unfold join_aspects. rewrite all_strs_strs. reflexivity.
Qed.

(** ** Cards *)

Lemma dedup_types_fold (entries : list (scalar * scalar)) :
  dedup_types entries = fst (fold_left dedup_step entries ([], [])).
Proof. reflexivity. Qed.

Lemma seen_canon (a : scalar) (seen : list scalar) :
  existsb (scalar_eqb a) seen = true <-> In (canon a) (map canon seen).
Proof.
  rewrite existsb_exists, in_map_iff. split.
  - intros (b & Hin & H). exists b. apply scalar_eqb_canon in H. auto.
  - intros (b & H & Hin). exists b. split; [assumption|].
    apply scalar_eqb_canon. congruence.
Qed.

(** The loop of [dedup_types] from a state whose set holds the types of
    its list. *)
Lemma dedup_loop (entries : list (scalar * scalar)) :
  forall types,
    NoDup (map (fun e => canon (fst e)) types) ->
    exists types',
      fold_left dedup_step entries (types, map fst types)
      = ((types ++ types')%list, map fst (types ++ types')%list)
      /\ NoDup (map (fun e => canon (fst e)) (types ++ types')%list)
      /\ (forall e, In e types' -> In e entries)
      /\ (forall e, In e entries ->
            In (canon (fst e))
               (map (fun e => canon (fst e)) (types ++ types')%list)).
Proof.
  induction entries as [|e entries IH]; intros types Hnd.
  - exists []. rewrite app_nil_r. repeat split; [assumption| |]; intros e [].
  - cbn [fold_left dedup_step].
    destruct (existsb (scalar_eqb (fst e)) (map fst types)) eqn:E.
    + destruct (IH types Hnd) as (types' & Hfold & Hnd' & Hsub & Hall).
      exists types'. split; [exact Hfold|]. split; [exact Hnd'|]. split.
      * intros e' H. right. apply Hsub. assumption.
      * intros e' [<-|H]; [|apply Hall; assumption].
        apply seen_canon in E. rewrite map_map in E.
        rewrite map_app. apply in_or_app. left. exact E.
    + assert (Hnd1 : NoDup (map (fun e => canon (fst e)) (push types e))).
      { unfold push. rewrite map_app. cbn [map].
        apply NoDup_app; [exact Hnd|constructor; [intros []|constructor]|].
        intros x Hx [<-|[]].
        assert (H : existsb (scalar_eqb (fst e)) (map fst types) = true).
        { apply seen_canon. rewrite map_map. exact Hx. }
        congruence. }
      assert (Hseen : push (map fst types) (fst e) = map fst (push types e)).
      { unfold push. rewrite map_app. reflexivity. }
      rewrite Hseen.
      destruct (IH (push types e) Hnd1) as (types' & Hfold & Hnd' & Hsub & Hall).
      unfold push in Hfold, Hnd', Hall. rewrite <- app_assoc in Hfold, Hnd', Hall.
      exists ([e] ++ types')%list. split; [exact Hfold|]. split; [exact Hnd'|].
      split.
      * intros e' [<-|H]; [left; reflexivity|right; apply Hsub; assumption].
      * intros e' [<-|H]; [|apply Hall; assumption].
        rewrite map_app. apply in_or_app. right. left. reflexivity.
Qed.

(** X13: [dedup_types] keeps entries of the group only, keeps no problem
    type twice, keeps every problem type of the group, and starts with
    the first entry: the card has one row for every distinct type. *)
Theorem dedup_types_distinct (entries : list (scalar * scalar)) :
  (forall e, In e (dedup_types entries) -> In e entries)
  /\ (forall l1 a l2 b l3,
        dedup_types entries = (l1 ++ a :: l2 ++ b :: l3)%list ->
        scalar_eqb (fst a) (fst b) = false)
  /\ (forall e, In e entries ->
        exists e', In e' (dedup_types entries)
                   /\ scalar_eqb (fst e) (fst e') = true)
  /\ (forall e rest, entries = e :: rest ->
        exists l, dedup_types entries = e :: l).
Proof.
  rewrite dedup_types_fold.
  destruct (dedup_loop entries [] (NoDup_nil _)) as (types' & Hfold & Hnd & Hsub & Hall).
  cbn [app map] in *. rewrite Hfold. cbn [fst].
  split; [exact Hsub|]. split; [|split].
  - intros l1 a l2 b l3 ->.
    destruct (scalar_eqb (fst a) (fst b)) eqn:E; [|reflexivity].
    apply scalar_eqb_canon in E. exfalso.
    rewrite map_app in Hnd. cbn [map] in Hnd. rewrite map_app in Hnd.
    cbn [map] in Hnd. apply (NoDup_two_apart _ _ _ _ _ Hnd). exact E.
  - intros e He. specialize (Hall e He). apply in_map_iff in Hall as (e' & H & Hin).
    exists e'. split; [assumption|]. apply scalar_eqb_canon. congruence.
  - intros e rest ->. cbn [fold_left dedup_step existsb] in Hfold.
    destruct (dedup_loop rest [e]) as (l & Hl & _).
    { constructor; [intros []|constructor]. }
    cbn [push app map fst] in *. rewrite Hl in Hfold.
    inversion Hfold as [[H1 H2]]. exists l. reflexivity.
Qed.

Lemma dedup_types_distinct_witness :
  scalar_eqb (SStr "wind_slab") (SStr "new_snow") = false
  /\ exists l,
       dedup_types [(SStr "wind_slab", SStr "Neige soufflée");
                    (SStr "new_snow", SStr "Neige fraîche");
                    (SStr "wind_slab", SStr "Neige soufflée")]
       = (SStr "wind_slab", SStr "Neige soufflée") :: l.
Proof.
  destruct (dedup_types_distinct
              [(SStr "wind_slab", SStr "Neige soufflée");
               (SStr "new_snow", SStr "Neige fraîche");
               (SStr "wind_slab", SStr "Neige soufflée")])
    as (_ & H2 & _ & H4).
  split.
  - apply (H2 [] (SStr "wind_slab", SStr "Neige soufflée") []
              (SStr "new_snow", SStr "Neige fraîche") []).
    reflexivity.
  - apply (H4 _ _ eq_refl).
Defined.

(** X14: [render_group_card] only appends to [html_output], and what it
    appends depends on the group alone; the cards of a list of groups are
    the markup of each group, one after the other. *)
Theorem cards_are_appended (py_repr : value -> string) (gs : list group)
  (html_output : list string) :
  fold_left (render_group_card py_repr) gs html_output
  = (html_output ++ flat_map (render_group_card py_repr []) gs)%list.
Proof.
  apply fold_left_append_only. apply render_group_card_app.
Qed.

(** ** The compass rose *)

Lemma compass_petals_table {T C : Type} (expos : list string)
  (tip_len_diag tip_len_card : T) (face_on face_off : C) :
  compass_petals expos tip_len_diag tip_len_card face_on face_off
  = Ok (map (fun row : string * Z * bool =>
               let '(d, theta, cardinal) := row in
               mkPetal d theta
                 (if cardinal then tip_len_card else tip_len_diag)
                 (if str_in d (map upper expos) then face_on else face_off))
            petal_table).
Proof. reflexivity. Qed.

Lemma str_in_In (d : string) (l : list string) : str_in d l = true <-> In d l.
Proof.
  unfold str_in. rewrite existsb_exists. split.
  - intros (x & Hin & H). apply String.eqb_eq in H. subst. assumption.
  - intros H. exists d. split; [assumption|apply String.eqb_refl].
Qed.

(** X15: [draw_compass] never fails on the angle table and always draws
    the eight petals N, NE, E, SE, S, SO, O, NO at 90, 45, ..., -225
    degrees, the cardinal ones with the longer tip; a petal has the "on"
    colour exactly when its direction is among the expositions in upper
    case, whatever their order, case or repetition. *)
Theorem compass_petals_lit {T C : Type} (expos : list string)
  (tip_len_diag tip_len_card : T) (face_on face_off : C) :
  exists petals,
    compass_petals expos tip_len_diag tip_len_card face_on face_off = Ok petals
    /\ map (fun p => (direction p, theta_c p)) petals
       = map (fun row => (fst (fst row), snd (fst row))) petal_table
    /\ Forall (fun p =>
                 tip_len p = (if str_in (direction p) CARDINALS
                              then tip_len_card else tip_len_diag)
                 /\ (In (direction p) (map upper expos) -> facecolor p = face_on)
                 /\ (~ In (direction p) (map upper expos) ->
                     facecolor p = face_off))
              petals.
Proof.
  eexists. split; [apply compass_petals_table|]. split; [reflexivity|].
  unfold petal_table. cbn [map].
  repeat constructor; cbn [direction tip_len facecolor];
    try (intros H; apply str_in_In in H; rewrite H; reflexivity);
    intros H;
    match goal with
    | |- context [str_in ?d ?l] =>
        destruct (str_in d l) eqn:E; [apply str_in_In in E; contradiction|]
    end;
    reflexivity.
Qed.

Lemma in_insert_sorted (x y : string) (l : list string) :
  In x (insert_sorted y l) <-> x = y \/ In x l.
Proof.
  induction l as [|z l IH]; cbn [insert_sorted].
  - cbn. intuition.
  - destruct (String.leb y z); cbn [In]; [intuition|].
    rewrite IH. intuition.
Qed.

Lemma in_sorted (x : string) (l : list string) : In x (sorted l) <-> In x l.
Proof.
  induction l as [|y l IH]; cbn [sorted]; [reflexivity|].
  rewrite in_insert_sorted, IH. cbn. intuition.
Qed.

(** X16: the file name stands for the picture: two lists of expositions
    with the same sorted upper-case form get the same file name and the
    same compass, petal by petal. *)
Theorem same_key_same_compass {T C : Type} (expos expos' : list string)
  (prefix fmt : string) (tip_len_diag tip_len_card : T) (face_on face_off : C) :
  sorted (map upper expos) = sorted (map upper expos') ->
  filename_for_expos expos prefix fmt = filename_for_expos expos' prefix fmt
  /\ compass_petals expos tip_len_diag tip_len_card face_on face_off
     = compass_petals expos' tip_len_diag tip_len_card face_on face_off.
Proof.
  intros H. split.
  - unfold filename_for_expos. rewrite H. reflexivity.
  - rewrite !compass_petals_table. f_equal. apply map_ext.
    intros [[d theta] cardinal].
    assert (E : str_in d (map upper expos) = str_in d (map upper expos')).
    { destruct (str_in d (map upper expos)) eqn:E1,
               (str_in d (map upper expos')) eqn:E2; try reflexivity.
      - apply (proj1 (str_in_In _ _)), (proj2 (in_sorted _ _)) in E1.
        rewrite H in E1.
        apply (proj1 (in_sorted _ _)), (proj2 (str_in_In _ _)) in E1.
        congruence.
      - apply (proj1 (str_in_In _ _)), (proj2 (in_sorted _ _)) in E2.
        rewrite <- H in E2.
        apply (proj1 (in_sorted _ _)), (proj2 (str_in_In _ _)) in E2.
        congruence. }
    rewrite E. reflexivity.
Qed.

Lemma same_key_same_compass_witness :
  filename_for_expos ["no"; "N"] default_prefix default_fmt
  = filename_for_expos ["n"; "NO"] default_prefix default_fmt
  /\ compass_petals ["no"; "N"] 28 40 "#9fb7ff" "#e7e7e7"
     = compass_petals ["n"; "NO"] 28 40 "#9fb7ff" "#e7e7e7".
Proof.
  apply (same_key_same_compass ["no"; "N"] ["n"; "NO"]). reflexivity.
Defined.

(** ** The region search *)

Lemma region_listed_others (rs : list value) :
  forallb other_region rs = true -> region_listed rs = Ok false.
Proof.
  induction rs as [|r rs IH]; cbn [forallb region_listed]; [reflexivity|].
  intros H. apply andb_true_iff in H as [Hr Hrs].
  destruct r as [a|l|rd]; cbn [other_region] in Hr; try discriminate.
  cbn [py_get bind]. fold (bound rd "regionID").
  apply negb_true_iff in Hr. rewrite Hr. apply IH. assumption.
Qed.

Lemma region_listed_found (before : list value) (r : value) (after : list value) :
  forallb other_region before = true -> names_region r = true ->
  region_listed (before ++ r :: after) = Ok true.
Proof.
  induction before as [|r0 rs IH]; cbn [forallb app region_listed]; intros H Hr.
  - destruct r as [a|l|rd]; cbn [names_region] in Hr; try discriminate.
    cbn [py_get bind]. fold (bound rd "regionID"). rewrite Hr. reflexivity.
  - apply andb_true_iff in H as [H0 Hrs].
    destruct r0 as [a|l|rd]; cbn [other_region] in H0; try discriminate.
    cbn [py_get bind]. fold (bound rd "regionID").
    apply negb_true_iff in H0. rewrite H0. apply IH; assumption.
Qed.

Lemma find_region_skip (feat : value) (rest : list value) :
  feature_without_region feat = true ->
  find_region (feat :: rest) VNone = find_region rest VNone.
Proof.
  intros H. destruct feat as [a|l|fd]; cbn [feature_without_region] in H;
    try discriminate.
  cbn [find_region py_get].
  destruct (lookup "properties" fd) as [[a|l|pd]|]; try discriminate.
  - cbn [bind py_get].
    destruct (lookup "regions" pd) as [[a|rs|rd]|]; try discriminate.
    + cbn [bind py_iter]. rewrite (region_listed_others rs H). reflexivity.
    + reflexivity.
  - reflexivity.
Qed.

(** X17: the search returns the properties of the first feature that
    lists [CH-4211] (the features before it listing other regions only);
    it stops there, so neither the region entries after the match nor
    the features after it are looked at, whatever they are. *)
Theorem find_region_first_match (before : list value)
  (fd pd : list (string * value)) (rs_before : list value) (r : value)
  (rs_after after : list value) :
  forallb feature_without_region before = true ->
  lookup "properties" fd = Some (VDict pd) ->
  lookup "regions" pd = Some (VList (rs_before ++ r :: rs_after)) ->
  forallb other_region rs_before = true ->
  names_region r = true ->
  find_region (before ++ VDict fd :: after) VNone = Ok (VDict pd).
Proof.
  intros Hbefore Hprops Hregions Hrs Hr.
  induction before as [|feat before IH]; cbn [app].
  - cbn [find_region py_get]. rewrite Hprops. cbn [bind py_get].
    rewrite Hregions. cbn [bind py_iter].
    rewrite (region_listed_found rs_before r rs_after Hrs Hr).
    cbn [bind py_getitem]. rewrite Hprops. cbn [bind].
    destruct pd as [|kv pd']; [discriminate Hregions|]. reflexivity.
  - cbn [forallb] in Hbefore. apply andb_true_iff in Hbefore as [Hf Hb].
    rewrite (find_region_skip feat _ Hf). apply IH. assumption.
Qed.

Lemma find_region_first_match_witness :
  find_region
    [VDict [("properties",
             VDict [("regions", VList [VDict [("regionID", VStr "CH-1111")]])])];
     VDict [("properties", sample_region)];
     VInt 5]
    VNone
  = Ok sample_region.
Proof.
  apply (find_region_first_match
           [VDict [("properties",
                    VDict [("regions",
                            VList [VDict [("regionID", VStr "CH-1111")]])])]]
           [("properties", sample_region)]
           [("regions", VList [VDict [("regionID", VStr "CH-4211")]]);
            ("dangerRatings", VList [sample_rating]);
            ("avalancheProblems", VList [sample_problem; sample_problem])]
           [] (VDict [("regionID", VStr "CH-4211")]) [] [VInt 5]);
    reflexivity.
Defined.

Lemma find_region_none (feats : list value) :
  forallb feature_without_region feats = true ->
  find_region feats VNone = Ok VNone.
Proof.
  induction feats as [|feat feats IH]; [reflexivity|].
  cbn [forallb]. intros H. apply andb_true_iff in H as [Hf Hrest].
  rewrite (find_region_skip feat feats Hf). apply IH. assumption.
Qed.

(** X18: when no feature of the payload lists the region, the run
    prints the one line "Region de CH-4211 introuvable." and ends
    normally: nothing is saved or written, and no exception is raised. *)
Theorem region_absent_prints_message (py_repr : value -> string) (a : args)
  (BASE : string) (ACTIVE_AT : datetime) (d : list (string * value))
  (feats : list value) :
  lookup "features" d = Some (VList feats) \/ (lookup "features" d = None
                                               /\ feats = []) ->
  forallb feature_without_region feats = true ->
  main py_repr a BASE ACTIVE_AT (VDict d)
  = ([Print "Region de CH-4211 introuvable."], Ok tt).
Proof.
  intros Hd Hfeats.
  assert (Hfind := find_region_none feats Hfeats).
  unfold main. cbn [py_get].
  destruct Hd as [->|[-> ->]]; cbn [bind py_iter]; rewrite ?Hfind; reflexivity.
Qed.

Lemma region_absent_prints_message_witness :
  main repr_unused default_args "/srv/bulletin" sample_time
    (VDict [("features",
             VList [VDict [("properties",
                     VDict [("regions",
                             VList [VDict [("regionID", VStr "CH-1111")]])])];
                    VDict []])])
  = ([Print "Region de CH-4211 introuvable."], Ok tt).
Proof.
  apply (region_absent_prints_message repr_unused default_args "/srv/bulletin"
           sample_time _
           [VDict [("properties",
                    VDict [("regions",
                            VList [VDict [("regionID", VStr "CH-1111")]])])];
            VDict []]).
  - left. reflexivity.
  - reflexivity.
Defined.

(** ** The backfill loop *)

Module BackfillProps.

Import Backfill.

Section World.

Variable environ : string -> option string.
Variable fromisoformat : string -> option Z.
Variable isoformat : Z -> string.
Variable repo : string.
Variable exit_code : Z -> Z.
Variable out_exists : Z -> bool.
Variable images : Z -> option (list (string * bool)).

Local Abbreviation build_day :=
  (build_day isoformat repo exit_code out_exists images).
Local Abbreviation loop := (loop isoformat repo exit_code out_exists images).
Local Abbreviation main :=
  (main environ fromisoformat isoformat repo exit_code out_exists images).
Local Abbreviation built := (built exit_code out_exists).

Lemma build_day_built (d : Z) : snd (build_day d) = built d.
Proof.
  unfold Backfill.build_day, Backfill.built.
  destruct (exit_code d =? 0), (out_exists d); reflexivity.
Qed.

Lemma loop_from (start : Z) (l : list nat) :
  forall (acts : list action) (ok : Z),
    fold_left
      (fun (st : list action * Z) (i : nat) =>
         let '(acts, ok) := st in
         let '(a, built) := build_day (start + Z.of_nat i) in
         ((acts ++ a)%list, if built : bool then ok + 1 else ok))
      l (acts, ok)
    = ((acts ++ flat_map (fun d => fst (build_day d))
                         (map (fun i => start + Z.of_nat i) l))%list,
       ok + Z.of_nat (List.length
                        (filter built (map (fun i => start + Z.of_nat i) l)))).
Proof.
  induction l as [|i l IH]; intros acts ok;
    cbn [fold_left map flat_map filter].
  - rewrite app_nil_r. cbn [List.length]. f_equal. lia.
  - rewrite <- build_day_built.
    destruct (build_day (start + Z.of_nat i)) as [a b]. cbn [fst snd].
    destruct b; rewrite IH, <- app_assoc; cbn [List.length]; f_equal; lia.
Qed.

(** The loop as a list of days: the actions of the days one after the
    other, and the number of built days. *)
Lemma loop_days (start days : Z) (acts : list action) :
  loop start days acts
  = ((acts ++ flat_map (fun d => fst (build_day d))
                       (map (fun i => start + Z.of_nat i)
                            (seq 0 (Z.to_nat days))))%list,
     Z.of_nat (List.length
                 (filter built (map (fun i => start + Z.of_nat i)
                                    (seq 0 (Z.to_nat days)))))).
Proof. unfold Backfill.loop. rewrite loop_from. reflexivity. Qed.

Lemma calls_app (a b : list action) : calls (a ++ b) = (calls a ++ calls b)%list.
Proof. unfold calls. apply flat_map_app. Qed.

Lemma errs_app (a b : list action) : errs (a ++ b) = (errs a ++ errs b)%list.
Proof. unfold errs. apply flat_map_app. Qed.

Lemma copies_app (a b : list action) :
  copies (a ++ b) = (copies a ++ copies b)%list.
Proof. unfold copies. apply flat_map_app. Qed.

Lemma copy_images_only_copies (d : Z) (day_dir : string) :
  calls (copy_images repo images d day_dir) = []
  /\ errs (copy_images repo images d day_dir) = [].
Proof.
  unfold copy_images. destruct (images d) as [entries|]; [|auto].
  induction entries as [|[name f] entries [IH1 IH2]]; [auto|].
  cbn [flat_map fst snd]. rewrite calls_app, errs_app, IH1, IH2.
  destruct f; auto.
Qed.

Lemma build_day_observed (d : Z) :
  calls (fst (build_day d)) = [call_for isoformat repo d]
  /\ errs (fst (build_day d))
     = (if built d then []
        else ["Skip " ++ isoformat d ++ " (exit="
              ++ str_scalar (SInt (exit_code d)) ++ ")"])
  /\ copies (fst (build_day d))
     = (if built d then copies_for isoformat repo images d else []).
Proof.
  unfold Backfill.build_day, Backfill.built.
  destruct (copy_images_only_copies d (day_dir isoformat repo d)) as [Hc He].
  destruct (exit_code d =? 0), (out_exists d); cbn [negb orb andb fst];
    repeat split;
    rewrite ?calls_app, ?errs_app, ?copies_app, ?Hc, ?He; reflexivity.
Qed.

Lemma flat_map_observed {A : Type} (obs : list action -> list A)
  (per_day : Z -> list A) (days : list Z) :
  (forall a b, obs (a ++ b)%list = (obs a ++ obs b)%list) ->
  (forall d, obs (fst (build_day d)) = per_day d) ->
  obs (flat_map (fun d => fst (build_day d)) days) = flat_map per_day days.
Proof.
  intros Happ Hday. induction days as [|d days IH]; cbn [flat_map].
  - specialize (Happ [] []). cbn [app] in Happ.
    destruct (obs []) as [|x l]; [reflexivity|].
    apply (f_equal (@List.length A)) in Happ. rewrite length_app in Happ.
    cbn [List.length] in Happ. lia.
  - rewrite Happ, Hday, IH. reflexivity.
Qed.

(** The script, once both dates are read. *)
Lemma main_actions (argv : list string) (start end_ : Z) :
  fromisoformat (fst (date_args environ argv)) = Some start ->
  fromisoformat (snd (date_args environ argv)) = Some end_ ->
  main argv
  = ((([Mkdir (out_dir repo)]
       ++ flat_map (fun d => fst (build_day d)) (days_between start end_))
      ++ [Out (newline ++ "Built "
               ++ str_scalar
                    (SInt (Z.of_nat
                             (List.length
                                (filter built (days_between start end_)))))
               ++ "/" ++ str_scalar (SInt (end_ - start + 1)) ++ " days")])%list,
     Done).
Proof.
  intros Hs He. unfold Backfill.main.
  destruct (date_args environ argv) as [start_s end_s]. cbn [fst snd] in Hs, He.
  rewrite Hs, He, loop_days. reflexivity.
Qed.


(** X20: the summary counts exactly the days whose renderer exited with
    0 and left its file; exactly the other days get a "Skip" line; and
    only the counted days are copied to the archive, each with its page
    first and then the files of the image directory. *)
Theorem built_days_are_counted_and_copied (argv : list string)
  (start end_ : Z) :
  fromisoformat (fst (date_args environ argv)) = Some start ->
  fromisoformat (snd (date_args environ argv)) = Some end_ ->
  let days := days_between start end_ in
  let ok := Z.of_nat (List.length (filter built days)) in
  (exists acts,
      fst (main argv)
      = (acts ++ [Out (newline ++ "Built " ++ str_scalar (SInt ok) ++ "/"
                       ++ str_scalar (SInt (end_ - start + 1)) ++ " days")])%list)
  /\ errs (fst (main argv))
     = map (fun d => "Skip " ++ isoformat d ++ " (exit="
                     ++ str_scalar (SInt (exit_code d)) ++ ")")
           (filter (fun d => negb (built d)) days)
  /\ copies (fst (main argv))
     = flat_map (copies_for isoformat repo images) (filter built days)
  /\ 0 <= ok <= Z.of_nat (List.length days).
Proof.
  intros Hs He days ok. rewrite (main_actions argv start end_ Hs He).
  cbn [fst snd]. fold days. fold ok.
  split; [eexists; reflexivity|]. split; [|split].
  - rewrite !errs_app.
    rewrite (flat_map_observed errs
               (fun d => if built d then []
                         else ["Skip " ++ isoformat d ++ " (exit="
                               ++ str_scalar (SInt (exit_code d)) ++ ")"]));
      [|apply errs_app|intros d; apply build_day_observed].
    cbn [errs flat_map app]. rewrite app_nil_r.
    clear. induction days as [|d l IH]; [reflexivity|].
    cbn [flat_map filter]. destruct (built d); cbn [negb map app]; rewrite IH;
      reflexivity.
  - rewrite !copies_app.
    rewrite (flat_map_observed copies
               (fun d => if built d then copies_for isoformat repo images d
                         else []));
      [|apply copies_app|intros d; apply build_day_observed].
    cbn [copies flat_map app]. rewrite app_nil_r.
    clear. induction days as [|d l IH]; [reflexivity|].
    cbn [flat_map filter]. destruct (built d); cbn [flat_map app]; rewrite IH;
      reflexivity.
  - unfold ok. split; [lia|].
    apply inj_le. apply filter_length_le.
Qed.

(** X21: a date that [date.fromisoformat] rejects ends the script with
    [ValueError] before it has done anything; and with fewer than two
    arguments the command line is not read at all, so a single date
    given alone is ignored in favour of the environment and the
    defaults. *)
Theorem bad_dates_and_short_command_lines :
  (forall argv,
      fromisoformat (fst (date_args environ argv)) = None
      \/ fromisoformat (snd (date_args environ argv)) = None ->
      main argv = ([], ValueError))
  /\ (forall argv, (List.length argv < 3)%nat -> main argv = main []).
Proof.
  split.
  - intros argv H. unfold Backfill.main.
    destruct (date_args environ argv) as [start_s end_s]. cbn [fst snd] in H.
    destruct (fromisoformat start_s) as [start|]; [|reflexivity].
    destruct H as [H|H]; [discriminate H|]. rewrite H. reflexivity.
  - intros argv H. unfold Backfill.main, date_args.
    destruct (3 <=? List.length argv)%nat eqn:E; [|reflexivity].
    apply Nat.leb_le in E. lia.
Qed.

End World.

End BackfillProps.


Lemma built_days_are_counted_and_copied_witness :
  Backfill.errs
    (fst (Backfill.main BackfillSample.environ BackfillSample.fromisoformat
            BackfillSample.isoformat "/repo" BackfillSample.exit_code
            BackfillSample.out_exists BackfillSample.images
            BackfillSample.argv))
  = ["Skip 2025-01-02 (exit=1)"].
Proof.
  apply (BackfillProps.built_days_are_counted_and_copied
           BackfillSample.environ BackfillSample.fromisoformat
           BackfillSample.isoformat "/repo" BackfillSample.exit_code
           BackfillSample.out_exists BackfillSample.images
           BackfillSample.argv 0 2);
    reflexivity.
Defined.

Lemma bad_dates_and_short_command_lines_witness :
  Backfill.main BackfillSample.environ BackfillSample.fromisoformat
    BackfillSample.isoformat "/repo" BackfillSample.exit_code
    BackfillSample.out_exists BackfillSample.images
    ["backfill.py"; "tomorrow"; "2025-01-03"]
  = ([], Backfill.ValueError).
Proof.
  apply (proj1 (BackfillProps.bad_dates_and_short_command_lines
                  BackfillSample.environ BackfillSample.fromisoformat
                  BackfillSample.isoformat "/repo" BackfillSample.exit_code
                  BackfillSample.out_exists BackfillSample.images)).
  left. reflexivity.
Defined.

Lemma aspects_key_sentinel_iff_witness :
  _aspects_key (VList [VStr "all"]) = Ok [VStr "all"].
Proof.
  apply (proj2 (aspects_key_sentinel_iff (VList [VStr "all"]))).
  right. right. right. left. reflexivity.
Defined.

(** ** The record a group shows *)

Lemma update_group_new (k : group_key) (f : group -> group) (groups : groups_t)
  (g : group) :
  key_in k groups = false ->
  update_group k f (push groups (k, g)) = push groups (k, f g).
Proof.
  unfold push. induction groups as [|[k' g'] rest IH]; cbn [app update_group].
  - intros _. rewrite key_eqb_refl. reflexivity.
  - unfold key_in. cbn [existsb fst]. intros H.
    apply orb_false_iff in H as [H1 H2]. rewrite H1, (IH H2). reflexivity.
Qed.

Lemma new_group_shows (py_repr : value -> string) (ap elev aspects : value)
  (tr : list event) (g : group) :
  py_get ap "elevation" (VDict []) = Ok elev ->
  py_get ap "aspects" VNone = Ok aspects ->
  new_group py_repr ap elev aspects = (tr, Ok g) ->
  shows_record py_repr ap g /\ raw g = [].
Proof.
  intros Helev Hasp Hnew. unfold new_group in Hnew.
  apply bindM_ok in Hnew as (u1 & [et icon] & u2 & H1 & Hnew & ->).
  apply lift_ok in H1 as [Hed ->].
  apply bindM_ok in Hnew as (u3 & [xt fr] & u4 & H1 & Hnew & ->).
  apply lift_ok in H1 as [Hxd ->].
  apply bindM_ok in Hnew as (u5 & [] & u6 & _ & Hnew & ->).
  apply bindM_ok in Hnew as (u7 & c & u8 & H1 & Hnew & ->).
  apply lift_ok in H1 as [Hc ->].
  apply retM_ok in Hnew as [<- ->].
  split; [|reflexivity].
  exists elev, aspects, fr. repeat split; assumption.
Qed.

Lemma add_problem_shows (py_repr : value -> string) (groups : groups_t)
  (ap : value) (tr : list event) (groups' : groups_t) :
  Forall (fun kg => exists first rest,
                      raw (snd kg) = first :: rest
                      /\ shows_record py_repr first (snd kg)) groups ->
  add_problem py_repr groups ap = (tr, Ok groups') ->
  Forall (fun kg => exists first rest,
                      raw (snd kg) = first :: rest
                      /\ shows_record py_repr first (snd kg)) groups'.
Proof.
  intros Hinv H. unfold add_problem in H.
  apply bindM_ok in H as (t1 & elev & t2 & H1 & H & ->).
  apply lift_ok in H1 as [Helev ->].
  apply bindM_ok in H as (t1 & aspects & t3 & H1 & H & ->).
  apply lift_ok in H1 as [Hasp ->].
  apply bindM_ok in H as (t1 & k & t4 & H1 & H & ->).
  apply lift_ok in H1 as [Hk ->].
  apply bindM_ok in H as (t1 & groups1 & t5 & Hg & H & ->).
  apply bindM_ok in H as (t6 & pt & t7 & H1 & H & ->).
  apply lift_ok in H1 as [Hpt ->].
  apply bindM_ok in H as (t8 & [pt' german] & t9 & H1 & H & ->).
  apply lift_ok in H1 as [Hlab ->].
  apply retM_ok in H as [<- ->].
  assert (Hkeep : forall base,
             Forall (fun kg => exists first rest,
                                 raw (snd kg) = first :: rest
                                 /\ shows_record py_repr first (snd kg)) base ->
             Forall (fun kg => exists first rest,
                                 raw (snd kg) = first :: rest
                                 /\ shows_record py_repr first (snd kg))
                    (update_group k (append_entry pt' german ap) base)).
  { intros base Hbase. apply Forall_forall. intros [k' g'] Hin.
    apply update_group_in in Hin as (g0 & Hin & Hg').
    rewrite Forall_forall in Hbase.
    destruct (Hbase _ Hin) as (first & rest & Hraw & Hshow). cbn [snd] in *.
    destruct Hg' as [->| ->].
    - exists first, rest. auto.
    - exists first, (rest ++ [ap])%list. split; [|exact Hshow].
      cbn [append_entry raw]. unfold push. rewrite Hraw. reflexivity. }
  destruct (key_in k groups) eqn:Ein; cbn [negb] in Hg.
  - apply retM_ok in Hg as [<- ->]. apply Hkeep. assumption.
  - apply bindM_ok in Hg as (t10 & g & t11 & Hnew & Hg & ->).
    apply retM_ok in Hg as [<- ->].
    destruct (new_group_shows py_repr ap elev aspects t10 g Helev Hasp Hnew)
      as [Hshow Hraw].
    rewrite (update_group_new k _ groups g Ein). unfold push.
    apply Forall_app. split; [assumption|].
    constructor; [|constructor]. cbn [snd].
    exists ap, []. split; [|exact Hshow].
    cbn [append_entry raw]. unfold push. rewrite Hraw. reflexivity.
Qed.

(** X22: every group shows its first record: its elevation text and
    mountain icon, its exposition text and compass file are computed from
    the record that opened the group, and its comment is the comment of
    that record as it stands, not trimmed; later records of the group add
    their entry only. *)
Theorem group_shows_first_record (py_repr : value -> string)
  (aps : list value) (tr : list event) (gs : groups_t) :
  build_groups py_repr aps = (tr, Ok gs) ->
  Forall (fun kg => exists first rest,
                      raw (snd kg) = first :: rest
                      /\ shows_record py_repr first (snd kg)) gs.
Proof.
  unfold build_groups.
  assert (Hinit : Forall (fun kg : group_key * group =>
                            exists first rest,
                              raw (snd kg) = first :: rest
                              /\ shows_record py_repr first (snd kg)) [])
    by constructor.
  revert Hinit. generalize (@nil (group_key * group)) as groups.
  intros groups Hinit H. revert groups tr H Hinit.
  induction aps as [|ap aps IH]; intros groups tr H Hinit; cbn [foldMM] in H.
  - apply retM_ok in H as [<- _]. assumption.
  - apply bindM_ok in H as (t1 & groups' & t2 & Hadd & Hrest & ->).
    apply (IH groups' t2 Hrest).
    apply (add_problem_shows py_repr groups ap t1 groups' Hinit Hadd).
Qed.

Lemma group_shows_first_record_witness :
  exists tr gs,
    build_groups repr_unused [sample_problem; sample_problem] = (tr, Ok gs)
    /\ Forall (fun kg => exists first rest,
                           raw (snd kg) = first :: rest
                           /\ shows_record repr_unused first (snd kg)) gs.
Proof.
  destruct (build_groups repr_unused [sample_problem; sample_problem])
    as [tr [gs|e]] eqn:E.
  - exists tr, gs. split; [reflexivity|].
    apply (group_shows_first_record repr_unused _ tr gs E).
  - vm_compute in E. discriminate E.
Defined.
